(** * Visionary: image codec, Ollama description client and the App handler

    A shallow embedding of
    - [fileToImageInfo]                (components: the image codec),
    - [generateDescriptionFromImage]   (services/ollamaService.ts),
    - [handleGenerateDescription]      (App.tsx),
    together with the fragment of the JavaScript platform these functions
    call: strings of UTF-16 code units, [split], [match] with the regular
    expression [/:(.*?);/], [trim], template literals, property reads on
    parsed JSON, [JSON.stringify] of the request literal, [fetch],
    [FileReader.readAsDataURL] and [console.error]. *)

From Stdlib Require Import List NArith Bool String Ascii Lia DecimalString.
Import ListNotations.
Open Scope list_scope.
Open Scope N_scope.
Set Warnings "-register-all".

(** ** JavaScript strings *)

Module Js.

(** A string is a sequence of UTF-16 code units. *)
Definition code_unit := N.
Definition jsstring := list code_unit.

(** A string literal of the source, all of whose characters are ASCII. *)
Definition lit (s : string) : jsstring :=
  map N_of_ascii (list_ascii_of_string s).
Arguments lit s%_string.

Definition comma : code_unit := 44.
Definition colon : code_unit := 58.
Definition semicolon : code_unit := 59.
Definition newline : code_unit := 10.
Definition quote : code_unit := 34.
Definition backslash : code_unit := 92.

(** LineTerminator: LF, CR, LS, PS. *)
Definition is_line_terminator (c : code_unit) : bool :=
  (c =? 10) || (c =? 13) || (c =? 0x2028) || (c =? 0x2029).

(** WhiteSpace: TAB, VT, FF, SP, NBSP, ZWNBSP and the space separators. *)
Definition is_white_space (c : code_unit) : bool :=
  (c =? 9) || (c =? 11) || (c =? 12) || (c =? 32) || (c =? 0xA0)
  || (c =? 0x1680) || ((0x2000 <=? c) && (c <=? 0x200A))
  || (c =? 0x202F) || (c =? 0x205F) || (c =? 0x3000) || (c =? 0xFEFF).

(** What [String.prototype.trim] strips: WhiteSpace and LineTerminator. *)
Definition is_trimmed (c : code_unit) : bool :=
  is_white_space c || is_line_terminator c.

Fixpoint trimStart (s : jsstring) : jsstring :=
  match s with
  | [] => []
  | c :: r => if is_trimmed c then trimStart r else s
  end.

Definition trimEnd (s : jsstring) : jsstring := rev (trimStart (rev s)).

(** [s.trim()] *)
Definition trim (s : jsstring) : jsstring := trimEnd (trimStart s).

(** [s.split(sep)] for a separator of one code unit.  The array is never
    empty: it is returned as its first element and the list of the others. *)
Fixpoint split (sep : code_unit) (s : jsstring) : jsstring * list jsstring :=
  match s with
  | [] => ([], [])
  | c :: r =>
      let (h, t) := split sep r in
      if c =? sep then ([], h :: t) else (c :: h, t)
  end.

(** [(.*?);] anchored at the head of [s]: the lazy star takes the fewest
    code units, [.] takes no line terminator.  The result is the capture. *)
Fixpoint lazy_dots_then_semicolon (s : jsstring) : option jsstring :=
  match s with
  | [] => None
  | c :: r =>
      if c =? semicolon then Some []
      else if is_line_terminator c then None
      else option_map (cons c) (lazy_dots_then_semicolon r)
  end.

(** [s.match(/:(.*?);/)]: [None] is JavaScript's [null], [Some m] the match
    array, of which only capture group 1 is kept.  The leftmost start wins. *)
Fixpoint match_colon_semicolon (s : jsstring) : option jsstring :=
  match s with
  | [] => None
  | c :: r =>
      if c =? colon then
        match lazy_dots_then_semicolon r with
        | Some m => Some m
        | None => match_colon_semicolon r
        end
      else match_colon_semicolon r
  end.

(** ToString of a non-negative integer Number, as a template literal
    interpolates [response.status]. *)
Definition number_to_string (n : N) : jsstring :=
  lit (NilZero.string_of_uint (N.to_uint n)).

(** What [.] of a regular expression takes, and what [trim] strips. *)
Definition dot (c : code_unit) : Prop := is_line_terminator c = false.
Definition blank (c : code_unit) : Prop := is_trimmed c = true.

(** [sub] occurs in [s]. *)
Definition contains (s sub : jsstring) : Prop :=
  exists pre post, s = pre ++ sub ++ post.

(** [s.startsWith(sub)] and [s.includes(sub)], to decide [contains]. *)
Fixpoint startsWith (s sub : jsstring) {struct sub} : bool :=
  match sub, s with
  | [], _ => true
  | c :: sub', d :: s' => (c =? d) && startsWith s' sub'
  | _ :: _, [] => false
  end.

Fixpoint includes (s sub : jsstring) : bool :=
  startsWith s sub
  || match s with
     | [] => false
     | _ :: r => includes r sub
     end.

(** Error objects and other thrown values.  [instanceof TypeError] holds
    of [TypeError] only, [instanceof Error] of every [ErrorObject]. *)
Inductive ErrorKind := TypeError | SyntaxError | DOMException | PlainError.

Inductive Thrown :=
| ErrorObject (kind : ErrorKind) (message : jsstring)
| NonError (what : jsstring).   (* a value that is not an Error, named *)

Definition new_Error (message : jsstring) : Thrown :=
  ErrorObject PlainError message.

Definition instanceof_TypeError (t : Thrown) : bool :=
  match t with ErrorObject TypeError _ => true | _ => false end.

Definition instanceof_Error (t : Thrown) : bool :=
  match t with ErrorObject _ _ => true | NonError _ => false end.

(** A settled promise. *)
Inductive Settled (A : Type) :=
| Resolved (a : A)
| Rejected (t : Thrown).
Arguments Resolved {A} a.
Arguments Rejected {A} t.

End Js.
Import Js.

(** ** The image codec *)

Module Codec.

(** types.ts.  [base64Data] is declared a string; the destructuring in
    [fileToImageInfo] leaves it [undefined] ([None]) when the data URL has
    no comma. *)
Record ImageInfo := {
  base64Data : option jsstring;
  mimeType : jsstring;
  previewUrl : jsstring
}.

(** A [File]: its bytes and its [type]. *)
Record File := {
  file_bytes : list N;
  file_type : jsstring
}.

(** What the [FileReader] delivers: [load] with [event.target.result]
    ([None] when it is not a string) or [error] with its event. *)
Inductive ReaderEvent :=
| OnLoad (result : option jsstring)
| OnError (event : Thrown).

Definition could_not_determine : jsstring :=
  lit "Could not determine image MIME type.".

(** The body of [reader.onload]. *)
Definition onload (result : option jsstring) : Settled ImageInfo :=
  match result with
  | Some dataUrl =>
      let (header, others) := split comma dataUrl in
      let base64Data := hd_error others in
      match match_colon_semicolon header with
      | None | Some [] => Rejected (new_Error could_not_determine)
      | Some mime =>
          Resolved {| base64Data := base64Data;
                      mimeType := mime;
                      previewUrl := dataUrl |}
      end
  | None => Rejected (new_Error (lit "Failed to read file as a data URL."))
  end.

(** [fileToImageInfo(file)], for a reader that answers [readAsDataURL]
    with one event. *)
Definition fileToImageInfo (readAsDataURL : File -> ReaderEvent) (file : File)
  : Settled ImageInfo :=
  match readAsDataURL file with
  | OnLoad result => onload result
  | OnError event => Rejected event
  end.

(** *** The platform's encoder

    A successful [readAsDataURL] delivers [data:<type>;base64,<payload>],
    the payload being the bytes in base64 (RFC 4648, with padding). *)
Definition base64_alphabet : jsstring :=
  lit "ABCDEFGHIJKLMNOPQRSTUVWXYZabcdefghijklmnopqrstuvwxyz0123456789+/".

Definition base64_pad : code_unit := 61.

Definition base64_digit (i : N) : code_unit :=
  nth (N.to_nat (i mod 64)) base64_alphabet base64_pad.

Fixpoint base64 (bytes : list N) : jsstring :=
  match bytes with
  | [] => []
  | [a] =>
      [base64_digit (a / 4); base64_digit ((a mod 4) * 16);
       base64_pad; base64_pad]
  | [a; b] =>
      [base64_digit (a / 4); base64_digit ((a mod 4) * 16 + b / 16);
       base64_digit ((b mod 16) * 4); base64_pad]
  | a :: b :: c :: r =>
      base64_digit (a / 4) :: base64_digit ((a mod 4) * 16 + b / 16)
      :: base64_digit ((b mod 16) * 4 + c / 64) :: base64_digit (c mod 64)
      :: base64 r
  end.

(** A code unit of base64 text. *)
Definition base64_unit (c : code_unit) : Prop :=
  In c (base64_pad :: base64_alphabet).

(** The data URL [data:<mime>;base64,<data>]. *)
Definition data_url (mime data : jsstring) : jsstring :=
  lit "data:" ++ mime ++ lit ";base64," ++ data.

Definition encode (bytes : list N) (mime : jsstring) : jsstring :=
  data_url mime (base64 bytes).

Definition reader_loads : File -> ReaderEvent :=
  fun file => OnLoad (Some (encode (file_bytes file) (file_type file))).

(** The payload of the record a promise resolved with. *)
Definition base64Data_of (p : Settled ImageInfo) : option (option jsstring) :=
  match p with
  | Resolved info => Some (base64Data info)
  | Rejected _ => None
  end.

(** *** Vocabulary of the specification *)

(** The MIME type of a well-formed data URL: not empty, on one line, and
    free of the two delimiters [;] and [,] of the format. *)
Definition well_formed_mime (mime : jsstring) : Prop :=
  mime <> [] /\
  Forall (fun c => c <> semicolon /\ c <> comma /\ dot c) mime.

(** The header holds an envelope [:<mime>;] around a non-empty [<mime>]
    on one line. *)
Definition has_mime_envelope (header : jsstring) : Prop :=
  exists pre mime post,
    header = pre ++ colon :: mime ++ semicolon :: post
    /\ mime <> [] /\ Forall dot mime.

End Codec.

(** ** Parsed JSON and the engine's conversions *)

Module Ecma.

(** Synchronous evaluation: a value or a throw.  [await] turns a settled
    promise into one. *)
Inductive Completion (A : Type) :=
| Normal (a : A)
| Throw (t : Thrown).
Arguments Normal {A} a.
Arguments Throw {A} t.

Definition bind {A B} (c : Completion A) (k : A -> Completion B)
  : Completion B :=
  match c with
  | Normal a => k a
  | Throw t => Throw t
  end.

Definition await {A} (p : Settled A) : Completion A :=
  match p with
  | Resolved a => Normal a
  | Rejected t => Throw t
  end.

(** [p.catch(() => fallback)] *)
Definition catch {A} (p : Settled A) (fallback : A) : Settled A :=
  match p with
  | Resolved a => Resolved a
  | Rejected _ => Resolved fallback
  end.

(** The TypeErrors the engine itself raises. *)
Inductive Fault :=
| ReadOfNull (property : jsstring)     (* null.property *)
| NotAFunction (property : jsstring)   (* value.property() *)
| NoPrimitiveValue.                    (* an object without a usable toString *)

(** What the source leaves to the engine: the Number type with its ToString
    and ToBoolean, and the wording of the engine's own TypeErrors. *)
Class Engine := {
  num : Type;
  num_to_string : num -> jsstring;
  num_truthy : num -> bool;
  fault_message : Fault -> jsstring
}.

Definition engine_TypeError `{Engine} (f : Fault) : Thrown :=
  ErrorObject TypeError (fault_message f).

Fixpoint jsstring_eqb (a b : jsstring) : bool :=
  match a, b with
  | [], [] => true
  | x :: a', y :: b' => (x =? y) && jsstring_eqb a' b'
  | _, _ => false
  end.

Section WithEngine.
Context {E : Engine}.

(** A value produced by [response.json()]. *)
Inductive Json :=
| JNull
| JBool (b : bool)
| JNumber (n : num)
| JString (s : jsstring)
| JArray (elements : list Json)
| JObject (fields : list (jsstring * Json)).

(** A JavaScript value met by the client: [None] is [undefined]. *)
Definition Value := option Json.

(** The own property [key] of a parsed object, whose members are listed in
    the order of the text: of two members with one name the later stays. *)
Fixpoint own_property (fields : list (jsstring * Json)) (key : jsstring)
  : Value :=
  match fields with
  | [] => None
  | (k, v) :: r =>
      match own_property r key with
      | Some w => Some w
      | None => if jsstring_eqb k key then Some v else None
      end
  end.

(** [v.key] for a key that no prototype defines ([error], [response]):
    a throw on [null], the own property of an object, [undefined] on every
    other value. *)
Definition Get (v : Json) (key : jsstring) : Completion Value :=
  match v with
  | JNull => Throw (engine_TypeError (ReadOfNull key))
  | JObject fields => Normal (own_property fields key)
  | _ => Normal None
  end.

(** ToString of a parsed value.  An array joins its elements with commas,
    [null] elements giving the empty string; an object answers
    [[object Object]] through [Object.prototype.toString] unless a member
    named [toString] shadows it, which no parsed value can make callable. *)
Fixpoint ToString_json (v : Json) : Completion jsstring :=
  match v with
  | JNull => Normal (lit "null")
  | JBool true => Normal (lit "true")
  | JBool false => Normal (lit "false")
  | JNumber n => Normal (num_to_string n)
  | JString s => Normal s
  | JArray elements =>
      let element x :=
        match x with
        | JNull => Normal []
        | _ => ToString_json x
        end in
      (fix join (l : list Json) : Completion jsstring :=
         match l with
         | [] => Normal []
         | x :: r =>
             bind (element x) (fun a =>
             match r with
             | [] => Normal a
             | _ => bind (join r) (fun b => Normal (a ++ comma :: b))
             end)
         end) elements
  | JObject fields =>
      match own_property fields (lit "toString") with
      | Some _ => Throw (engine_TypeError NoPrimitiveValue)
      | None => Normal (lit "[object Object]")
      end
  end.

(** ToString, as a template literal applies it to a substitution. *)
Definition ToString (v : Value) : Completion jsstring :=
  match v with
  | None => Normal (lit "undefined")
  | Some j => ToString_json j
  end.

(** ToBoolean, as [if (...)] applies it. *)
Definition ToBoolean (v : Value) : bool :=
  match v with
  | None | Some JNull => false
  | Some (JBool b) => b
  | Some (JNumber n) => num_truthy n
  | Some (JString []) => false
  | Some (JString (_ :: _)) => true
  | Some (JArray _) | Some (JObject _) => true
  end.

(** [v.trim()]: the String method on a string; on any other parsed value
    [trim] is missing or is not a function. *)
Definition call_trim (v : Value) : Completion jsstring :=
  match v with
  | Some (JString s) => Normal (trim s)
  | _ => Throw (engine_TypeError (NotAFunction (lit "trim")))
  end.

End WithEngine.

(** An engine whose numbers are the natural numbers; its messages are V8's. *)
Definition natural_engine : Engine := {|
  num := N;
  num_to_string := number_to_string;
  num_truthy := fun n => negb (n =? 0);
  fault_message := fun f =>
    match f with
    | ReadOfNull p =>
        lit "Cannot read properties of null (reading '" ++ p ++ lit "')"
    | NotAFunction p => lit "data.response." ++ p ++ lit " is not a function"
    | NoPrimitiveValue => lit "Cannot convert object to primitive value"
    end
|}.

End Ecma.
Import Ecma.

(** ** services/ollamaService.ts *)

Module OllamaService.
Import Codec.

(** The URL of the Ollama API endpoint. *)
Definition OLLAMA_API_URL : jsstring :=
  lit "http://localhost:11434/api/generate".

(** The name of the model to use for generating descriptions. *)
Definition OLLAMA_MODEL : jsstring := lit "llava".

(** The prompt to use for generating the description. *)
Definition prompt : jsstring :=
  lit "Describe this image in detail. What objects are present? What is the setting? What actions are taking place? What is the overall mood or feeling of the image?".

(** *** The request *)

(** The object literal handed to [JSON.stringify]. *)
Record GenerateBody := {
  model : jsstring;
  body_prompt : jsstring;
  images : list (option jsstring);
  stream : bool
}.

(** The second argument of [fetch]. *)
Record RequestInit := {
  method : jsstring;
  headers : list (jsstring * jsstring);
  body : jsstring
}.

Definition hex_digit (i : N) : code_unit :=
  nth (N.to_nat (i mod 16)) (lit "0123456789abcdef") 48.

(** [\uXXXX] *)
Definition unicode_escape (c : code_unit) : jsstring :=
  [backslash; 117; hex_digit (c / 4096); hex_digit (c / 256);
   hex_digit (c / 16); hex_digit c].

Definition is_lead_surrogate (c : code_unit) : bool :=
  (0xD800 <=? c) && (c <=? 0xDBFF).
Definition is_trail_surrogate (c : code_unit) : bool :=
  (0xDC00 <=? c) && (c <=? 0xDFFF).

(** One code unit that is not the lead of a surrogate pair. *)
Definition quote_unit (c : code_unit) : jsstring :=
  if c =? 8 then [backslash; 98]
  else if c =? 9 then [backslash; 116]
  else if c =? 10 then [backslash; 110]
  else if c =? 12 then [backslash; 102]
  else if c =? 13 then [backslash; 114]
  else if c =? quote then [backslash; quote]
  else if c =? backslash then [backslash; backslash]
  else if (c <? 32) || is_lead_surrogate c || is_trail_surrogate c
       then unicode_escape c
  else [c].

Fixpoint quote_units (s : jsstring) : jsstring :=
  match s with
  | [] => []
  | c :: r =>
      if is_lead_surrogate c then
        match r with
        | d :: r' =>
            if is_trail_surrogate d then c :: d :: quote_units r'
            else unicode_escape c ++ quote_units r
        | [] => unicode_escape c
        end
      else quote_unit c ++ quote_units r
  end.

(** QuoteJSONString *)
Definition quote_json_string (s : jsstring) : jsstring :=
  quote :: quote_units s ++ [quote].

(** An array element: [undefined] is written [null]. *)
Definition stringify_element (x : option jsstring) : jsstring :=
  match x with
  | Some s => quote_json_string s
  | None => lit "null"
  end.

Fixpoint join_elements (l : list jsstring) : jsstring :=
  match l with
  | [] => []
  | [x] => x
  | x :: r => x ++ comma :: join_elements r
  end.

Definition member (key value : jsstring) : jsstring :=
  quote_json_string key ++ colon :: value.

(** [JSON.stringify] of the literal [{ model, prompt, images, stream }]. *)
Definition JSON_stringify (b : GenerateBody) : jsstring :=
  lit "{"
  ++ member (lit "model") (quote_json_string (model b)) ++ [comma]
  ++ member (lit "prompt") (quote_json_string (body_prompt b)) ++ [comma]
  ++ member (lit "images")
       (lit "[" ++ join_elements (map stringify_element (images b)) ++ lit "]")
  ++ [comma]
  ++ member (lit "stream") (if stream b then lit "true" else lit "false")
  ++ lit "}".

Definition request_body (imageInfo : ImageInfo) : GenerateBody :=
  {| model := OLLAMA_MODEL;
     body_prompt := prompt;
     images := [base64Data imageInfo];
     stream := false |}.

Definition request_init (imageInfo : ImageInfo) : RequestInit :=
  {| method := lit "POST";
     headers := [(lit "Content-Type", lit "application/json")];
     body := JSON_stringify (request_body imageInfo) |}.

(** The body as it goes over the wire, around the one element of
    [images]. *)
Definition in_quotes (s : jsstring) : jsstring := quote :: s ++ [quote].

Definition wire_body (element : jsstring) : jsstring :=
  lit "{" ++ in_quotes (lit "model") ++ lit ":" ++ in_quotes (lit "llava")
  ++ lit "," ++ in_quotes (lit "prompt") ++ lit ":" ++ in_quotes prompt
  ++ lit "," ++ in_quotes (lit "images") ++ lit ":[" ++ element ++ lit "],"
  ++ in_quotes (lit "stream") ++ lit ":false}".

(** A code unit that QuoteJSONString copies. *)
Definition is_plain (c : code_unit) : bool :=
  (32 <=? c) && negb (c =? quote) && negb (c =? backslash)
  && negb (is_lead_surrogate c) && negb (is_trail_surrogate c).

(** *** Error messages *)

(** ServerError *)
Definition server_error_message (status : N) (error : jsstring) : jsstring :=
  lit "Ollama API request failed with status " ++ number_to_string status
  ++ lit ". Message: " ++ error
  ++ lit ". Make sure Ollama is running and the '" ++ OLLAMA_MODEL
  ++ lit "' model is installed.".

Definition could_not_parse : jsstring := lit "Could not parse error response.".

(** EmptyResponseError *)
Definition empty_description_message : jsstring :=
  lit "The Ollama API returned an empty description.".

Definition remediation_command : jsstring :=
  lit "OLLAMA_ORIGINS='*' ollama serve".

(** ConnectivityError *)
Definition connectivity_message : jsstring :=
  lit "Could not connect to the Ollama server. " ++ newline ::
  lit "1. Is it running? " ++ newline ::
  lit "2. Are you getting a CORS error? If so, you must restart the Ollama server with permissions for web apps. Try running this command in your terminal: "
  ++ newline :: lit " " ++ remediation_command.

(** UnknownError *)
Definition unexpected_message : jsstring :=
  lit "An unexpected error occurred while communicating with the Ollama API.".

Section WithEngine.
Context {E : Engine}.

(** *** The network and the console *)

(** A [Response]: its status and what [response.json()] settles to. *)
Record Response := {
  status : N;
  json : Settled Json
}.

(** [response.ok]: the status is in the range 200-299. *)
Definition ok (r : Response) : bool :=
  (200 <=? status r) && (status r <=? 299).

(** What [fetch(url, init)] settles to. *)
Definition Network := jsstring -> RequestInit -> Settled Response.

Inductive LogArg :=
| LogString (s : jsstring)
| LogThrown (t : Thrown).

Inductive Event :=
| Fetch (url : jsstring) (init : RequestInit)
| ConsoleError (args : list LogArg).

Definition is_fetch (e : Event) : bool :=
  match e with Fetch _ _ => true | ConsoleError _ => false end.

(** The requests issued in a run. *)
Definition requests (trace : list Event) : list Event := filter is_fetch trace.

(** The values logged in a run. *)
Fixpoint logged (trace : list Event) : list Thrown :=
  match trace with
  | [] => []
  | ConsoleError args :: r =>
      flat_map (fun a => match a with LogThrown t => [t] | _ => [] end) args
      ++ logged r
  | Fetch _ _ :: r => logged r
  end.

(** The one request of a run, and the entry its [catch] block logs. *)
Definition the_request (imageInfo : ImageInfo) : Event :=
  Fetch OLLAMA_API_URL (request_init imageInfo).

Definition the_log (t : Thrown) : Event :=
  ConsoleError [LogString (lit "Error calling Ollama API:"); LogThrown t].

(** *** generateDescriptionFromImage *)

(** What follows the [fetch] in the [try] block. *)
Definition handle_response (response : Response) : Completion jsstring :=
  if negb (ok response) then
    bind (await (catch (json response)
                   (JObject [(lit "error", JString could_not_parse)])))
      (fun errorBody =>
    bind (Get errorBody (lit "error")) (fun error =>
    bind (ToString error) (fun text =>
    Throw (new_Error (server_error_message (status response) text)))))
  else
    bind (await (json response)) (fun data =>
    bind (Get data (lit "response")) (fun response_field =>
    if ToBoolean response_field then call_trim response_field
    else Throw (new_Error empty_description_message))).

(** The [try] block. *)
Definition try_block (fetch : Network) (imageInfo : ImageInfo)
  : list Event * Completion jsstring :=
  let init := request_init imageInfo in
  ([Fetch OLLAMA_API_URL init],
   bind (await (fetch OLLAMA_API_URL init)) handle_response).

(** The [catch] block: what it logs and what it throws. *)
Definition catch_block (error : Thrown) : list Event * Thrown :=
  ([ConsoleError [LogString (lit "Error calling Ollama API:"); LogThrown error]],
   if instanceof_TypeError error then new_Error connectivity_message
   else match error with
        | ErrorObject _ message => new_Error message
        | NonError _ => new_Error unexpected_message
        end).

Definition generateDescriptionFromImage (fetch : Network) (imageInfo : ImageInfo)
  : list Event * Settled jsstring :=
  let (trace, completion) := try_block fetch imageInfo in
  match completion with
  | Normal text => (trace, Resolved text)
  | Throw error =>
      let (trace', error') := catch_block error in
      (trace ++ trace', Rejected error')
  end.

(** *** Vocabulary of the specification *)

(** The failures the specification names: a status that is not a success,
    an empty description, a failure of the transport. *)
Definition named_failure (fetch : Network) (imageInfo : ImageInfo)
  (t : Thrown) : Prop :=
  (exists status text, t = new_Error (server_error_message status text))
  \/ t = new_Error empty_description_message
  \/ fetch OLLAMA_API_URL (request_init imageInfo) = Rejected t.

(** "Every other failure is wrapped under the generic message." *)
Definition other_failures_are_made_generic : Prop :=
  forall fetch imageInfo t,
    snd (try_block fetch imageInfo) = Throw t ->
    ~ named_failure fetch imageInfo t ->
    snd (generateDescriptionFromImage fetch imageInfo)
    = Rejected (new_Error unexpected_message).

End WithEngine.

End OllamaService.

(** ** App.tsx *)

Module App.
Import Codec OllamaService.

(** The four [useState] cells of [App]. *)
Record AppState := {
  imageInfo : option ImageInfo;
  description : jsstring;
  isLoading : bool;
  error : option jsstring
}.

Definition setDescription (d : jsstring) (st : AppState) : AppState :=
  {| imageInfo := imageInfo st; description := d;
     isLoading := isLoading st; error := error st |}.

Definition setIsLoading (b : bool) (st : AppState) : AppState :=
  {| imageInfo := imageInfo st; description := description st;
     isLoading := b; error := error st |}.

Definition setError (e : option jsstring) (st : AppState) : AppState :=
  {| imageInfo := imageInfo st; description := description st;
     isLoading := isLoading st; error := e |}.

Definition please_upload : jsstring := lit "Please upload an image first.".

Definition failed_to_generate (errorMessage : jsstring) : jsstring :=
  lit "Failed to generate description. " ++ errorMessage.

Section WithEngine.
Context {E : Engine}.

(** [handleGenerateDescription]: the events of the run and the state the
    setters leave. *)
Definition handleGenerateDescription (fetch : Network) (st : AppState)
  : list Event * AppState :=
  match imageInfo st with
  | None => ([], setError (Some please_upload) st)
  | Some info =>
      let st := setIsLoading true st in
      let st := setError None st in
      let st := setDescription [] st in
      let (trace, outcome) := generateDescriptionFromImage fetch info in
      match outcome with
      | Resolved generatedText =>
          (trace, setIsLoading false (setDescription generatedText st))
      | Rejected e =>
          let errorMessage :=
            match e with
            | ErrorObject _ message => message
            | NonError _ => lit "An unknown error occurred."
            end in
          let st := setError (Some (failed_to_generate errorMessage)) st in
          (trace ++ [ConsoleError [LogThrown e]], setIsLoading false st)
      end
  end.

End WithEngine.

End App.

(** ** components.tsx: the uploader *)

Module Uploader.
Import Codec.

(** The two [useState] cells of [ImageUploader]. *)
Record UploaderState := {
  preview : option jsstring;
  isDragging : bool
}.

Definition setPreview (p : option jsstring) (u : UploaderState)
  : UploaderState :=
  {| preview := p; isDragging := isDragging u |}.

Definition setIsDragging (b : bool) (u : UploaderState) : UploaderState :=
  {| preview := preview u; isDragging := b |}.

(** What the uploader does besides setting state. *)
Inductive UiEvent :=
| LogError (t : Thrown)          (* console.error(error) *)
| Alert (message : jsstring).    (* alert(message) *)

Definition could_not_process : jsstring :=
  lit "Could not process the selected file. Please try another image.".

(** [files && files[0]]: [None] unless the list is there and has a first
    file. *)
Definition first_file (files : option (list File)) : option File :=
  match files with
  | Some (file :: _) => Some file
  | _ => None
  end.

Section WithParent.
(** The state of the parent component and its [onImageUpload] prop. *)
Context {P : Type} (onImageUpload : option ImageInfo -> P -> P).

(** [handleFileChange(files)], once the reader has answered: the events,
    the cells of the uploader and the state of the parent. *)
Definition handleFileChange (readAsDataURL : File -> ReaderEvent)
  (files : option (list File)) (st : UploaderState * P)
  : list UiEvent * (UploaderState * P) :=
  match first_file files with
  | Some file =>
      match fileToImageInfo readAsDataURL file with
      | Resolved info =>
          ([], (setPreview (Some (previewUrl info)) (fst st),
                onImageUpload (Some info) (snd st)))
      | Rejected error =>
          ([LogError error; Alert could_not_process],
           (setPreview None (fst st), onImageUpload None (snd st)))
      end
  | None => ([], st)
  end.

Definition handleDragEnter (st : UploaderState * P) : UploaderState * P :=
  (setIsDragging true (fst st), snd st).

Definition handleDragLeave (st : UploaderState * P) : UploaderState * P :=
  (setIsDragging false (fst st), snd st).

Definition handleDragOver (st : UploaderState * P) : UploaderState * P := st.

(** [handleDrop(e)], the files being [e.dataTransfer.files]. *)
Definition handleDrop (readAsDataURL : File -> ReaderEvent)
  (files : list File) (st : UploaderState * P)
  : list UiEvent * (UploaderState * P) :=
  handleFileChange readAsDataURL (Some files)
    (setIsDragging false (fst st), snd st).

End WithParent.

End Uploader.

(** ** App.tsx: the upload callback, the page and a session *)

Module Page.
Import Codec OllamaService App Uploader.

Definition setImageInfo (info : option ImageInfo) (st : AppState) : AppState :=
  {| imageInfo := info; description := description st;
     isLoading := isLoading st; error := error st |}.

(** [handleImageUpload(info)] *)
Definition handleImageUpload (info : option ImageInfo) (st : AppState)
  : AppState :=
  setError None (setDescription [] (setImageInfo info st)).

(** [disabled={!imageInfo || isLoading}] *)
Definition button_disabled (st : AppState) : bool :=
  match imageInfo st with
  | None => true
  | Some _ => isLoading st
  end.

(** [{isLoading ? 'Analyzing...' : 'Generate Description'}] *)
Definition button_label (st : AppState) : jsstring :=
  if isLoading st then lit "Analyzing..." else lit "Generate Description".

(** What the result region of the page can show. *)
Inductive Panel :=
| Loader
| ErrorAlert (message : jsstring)
| Placeholder                       (* the hint of [DescriptionDisplay] *)
| DescriptionText (description : jsstring).

(** [DescriptionDisplay({ description })] *)
Definition DescriptionDisplay (description : jsstring) : Panel :=
  match description with
  | [] => Placeholder
  | _ :: _ => DescriptionText description
  end.

(** A string or [null] in a condition: false for [null] and for [''] . *)
Definition truthy (s : option jsstring) : bool :=
  match s with
  | Some (_ :: _) => true
  | _ => false
  end.

(** The three conditional children of the result region, in order. *)
Definition result_region (st : AppState) : list Panel :=
  (if isLoading st then [Loader] else [])
  ++ (match error st with
      | Some message =>
          if truthy (Some message) && negb (isLoading st)
          then [ErrorAlert message] else []
      | None => []
      end)
  ++ (if negb (isLoading st) && negb (truthy (error st))
      then [DescriptionDisplay (description st)] else []).

(** [handleGenerateDescription] up to its [await]... *)
Definition begin_generate (st : AppState) : AppState :=
  setDescription [] (setError None (setIsLoading true st)).

Section WithEngine.
Context {E : Engine}.

(** ...and from the [await] on, on the state as it then is. *)
Definition finish_generate (outcome : Settled jsstring) (st : AppState)
  : list Event * AppState :=
  match outcome with
  | Resolved generatedText =>
      ([], setIsLoading false (setDescription generatedText st))
  | Rejected e =>
      let errorMessage :=
        match e with
        | ErrorObject _ message => message
        | NonError _ => lit "An unknown error occurred."
        end in
      ([ConsoleError [LogThrown e]],
       setIsLoading false
         (setError (Some (failed_to_generate errorMessage)) st))
  end.

(** *** A session

    The page between two events: the cells of [App] and of the uploader,
    and the calls of the client that have not settled yet, each with what
    it will settle to. *)
Record Session := {
  app : AppState;
  uploader : UploaderState;
  pending : list (Settled jsstring)
}.

Definition initial : Session :=
  {| app := {| imageInfo := None; description := [];
               isLoading := false; error := None |};
     uploader := {| preview := None; isDragging := false |};
     pending := [] |}.

(** What can happen to the page.  [FilesRead] is [handleFileChange] at the
    moment the reader answers, for an input change as for a drop; [Drop]
    is the synchronous part of [handleDrop]; [Click] is a click on the
    button, which does nothing while the button is disabled; [Settle i]
    is the moment the [i]-th call in flight settles. *)
Inductive Action :=
| FilesRead (readAsDataURL : File -> ReaderEvent) (files : option (list File))
| DragEnter
| DragLeave
| DragOver
| Drop
| Click (fetch : Network)
| Settle (i : nat).

Fixpoint remove_nth {A} (i : nat) (l : list A) : list A :=
  match l, i with
  | [], _ => []
  | _ :: r, O => r
  | x :: r, S j => x :: remove_nth j r
  end.

Definition with_page (s : Session) (st : UploaderState * AppState) : Session :=
  {| app := snd st; uploader := fst st; pending := pending s |}.

Definition step (a : Action) (s : Session) : Session :=
  match a with
  | FilesRead readAsDataURL files =>
      with_page s
        (snd (handleFileChange handleImageUpload readAsDataURL files
                (uploader s, app s)))
  | DragEnter => with_page s (handleDragEnter (uploader s, app s))
  | DragLeave => with_page s (handleDragLeave (uploader s, app s))
  | DragOver => with_page s (handleDragOver (uploader s, app s))
  | Drop => with_page s (handleDragLeave (uploader s, app s))
  | Click fetch =>
      if button_disabled (app s) then s
      else match imageInfo (app s) with
           | None =>
               {| app := setError (Some please_upload) (app s);
                  uploader := uploader s;
                  pending := pending s |}
           | Some info =>
               {| app := begin_generate (app s);
                  uploader := uploader s;
                  pending :=
                    pending s
                    ++ [snd (generateDescriptionFromImage fetch info)] |}
           end
  | Settle i =>
      match nth_error (pending s) i with
      | None => s
      | Some outcome =>
          {| app := snd (finish_generate outcome (app s));
             uploader := uploader s;
             pending := remove_nth i (pending s) |}
      end
  end.

Definition run (actions : list Action) (s : Session) : Session :=
  fold_left (fun s a => step a s) actions s.

(** What holds of the page between any two events of a session. *)
Definition consistent (s : Session) : Prop :=
  preview (uploader s) = option_map previewUrl (imageInfo (app s))
  /\ (isLoading (app s) = true <-> pending s <> [])
  /\ (List.length (pending s) <= 1)%nat
  /\ (pending s <> [] -> error (app s) = None /\ description (app s) = [])
  /\ (error (app s) <> None -> description (app s) = [])
  /\ error (app s) <> Some please_upload.

End WithEngine.

End Page.

(** ** Concrete runs *)

Module Samples.
Import Codec OllamaService App.

#[local] Existing Instance natural_engine.

(** The record of a four-byte PNG upload. *)
Definition png : ImageInfo :=
  {| base64Data := Some (lit "iVBORw==");
     mimeType := lit "image/png";
     previewUrl := lit "data:image/png;base64,iVBORw==" |}.

(** A server that answers every request with [response]. *)
Definition answers (response : Response) : Network :=
  fun _ _ => Resolved response.

(** A network on which every [fetch] is rejected with [t]. *)
Definition refuses (t : Thrown) : Network :=
  fun _ _ => Rejected t.

Definition connection_refused : Thrown :=
  ErrorObject TypeError (lit "Failed to fetch").

Definition model_not_found : Response :=
  {| status := 500;
     json := Resolved (JObject [(lit "error", JString (lit "model not found"))]) |}.

Definition cat_on_a_mat : Response :=
  {| status := 200;
     json := Resolved
       (JObject [(lit "response", JString (lit "  A cat on a mat.  "))]) |}.

Definition empty_response : Response :=
  {| status := 200;
     json := Resolved (JObject [(lit "response", JString [])]) |}.

(** Status 500 with the body [null]. *)
Definition null_error_body : Response :=
  {| status := 500; json := Resolved JNull |}.

(** Status 404 with the body [null]. *)
Definition null_not_found_body : Response :=
  {| status := 404; json := Resolved JNull |}.

(** Status 200 with the body [null]. *)
Definition null_success_body : Response :=
  {| status := 200; json := Resolved JNull |}.

(** Status 200 with a body that is not JSON. *)
Definition truncated_body : Response :=
  {| status := 200;
     json := Rejected (ErrorObject SyntaxError
                         (lit "Unexpected end of JSON input")) |}.

Definition ready (info : ImageInfo) : AppState :=
  {| imageInfo := Some info; description := []; isLoading := false;
     error := None |}.

Definition nothing_uploaded : AppState :=
  {| imageInfo := None; description := []; isLoading := false;
     error := None |}.

End Samples.

(** ** More concrete inputs *)

Module MoreSamples.
Import Codec OllamaService App Uploader Page Samples.

#[local] Existing Instance natural_engine.

(** The four-byte PNG file of which [png] is the record. *)
Definition png_file : File :=
  {| file_bytes := [137; 80; 78; 71]; file_type := lit "image/png" |}.

(** A file the reader fails on. *)
Definition unreadable : File -> ReaderEvent :=
  fun _ => OnError (NonError (lit "ProgressEvent")).

(** Status 200 with a description of white space only. *)
Definition blank_description : Response :=
  {| status := 200;
     json := Resolved (JObject [(lit "response", JString [32; 10; 9])]) |}.

(** Status 200 with [true] as description. *)
Definition flag_description : Response :=
  {| status := 200;
     json := Resolved (JObject [(lit "response", JBool true)]) |}.

(** A second record, of the same payload under another type. *)
Definition gif : ImageInfo :=
  {| base64Data := Some (lit "iVBORw==");
     mimeType := lit "image/gif";
     previewUrl := lit "data:image/gif;base64,iVBORw==" |}.

Definition gif_file : File :=
  {| file_bytes := [137; 80; 78; 71]; file_type := lit "image/gif" |}.

End MoreSamples.

(** * Properties *)

(** ** Strings *)

Module StringFacts.

Lemma contains_intro (pre sub post : jsstring) :
  contains (pre ++ sub ++ post) sub.
Proof. now exists pre, post. Qed.

Lemma startsWith_app (sub post : jsstring) : startsWith (sub ++ post) sub = true.
Proof.
  induction sub as [|c sub IH]; simpl; [reflexivity|].
  now rewrite N.eqb_refl, IH.
Qed.

Lemma contains_includes (s sub : jsstring) :
  contains s sub -> includes s sub = true.
Proof.
  intros (pre & post & ->). induction pre as [|c pre IH].
  - simpl app. pose proof (startsWith_app sub post) as Hs.
    destruct (sub ++ post); simpl; now rewrite Hs.
  - simpl. rewrite IH. apply orb_true_r.
Qed.

Lemma startsWith_inv (sub s : jsstring) :
  startsWith s sub = true -> exists post, s = sub ++ post.
Proof.
  revert s; induction sub as [|c sub IH]; intros s; simpl.
  - now exists s.
  - destruct s as [|d s]; [discriminate|].
    intros H. apply andb_prop in H as [Hc Hs]. apply N.eqb_eq in Hc as ->.
    destruct (IH _ Hs) as (post & ->). now exists post.
Qed.

Lemma includes_contains (s sub : jsstring) :
  includes s sub = true -> contains s sub.
Proof.
  induction s as [|c s IH]; simpl; intros H; apply orb_prop in H as [H | H].
  - destruct (startsWith_inv _ _ H) as (post & Hs). now exists [], post.
  - discriminate.
  - destruct (startsWith_inv _ _ H) as (post & Hs). now exists [], post.
  - destruct (IH H) as (pre & post & ->). now exists (c :: pre), post.
Qed.

Lemma not_contains (s sub : jsstring) :
  includes s sub = false -> ~ contains s sub.
Proof.
  intros Hf Hc. apply contains_includes in Hc. congruence.
Qed.

Lemma split_app (sep : code_unit) (h rest : jsstring) :
  ~ In sep h ->
  split sep (h ++ rest) = (h ++ fst (split sep rest), snd (split sep rest)).
Proof.
  induction h as [|c h IH]; intros Hnot; simpl.
  - now destruct (split sep rest).
  - rewrite IH by (intros Hin; apply Hnot; now right).
    destruct (N.eqb_spec c sep) as [->|_]; [|reflexivity].
    exfalso; apply Hnot; now left.
Qed.

Lemma split_cons_sep (sep : code_unit) (r : jsstring) :
  split sep (sep :: r) = ([], fst (split sep r) :: snd (split sep r)).
Proof. simpl. destruct (split sep r). now rewrite N.eqb_refl. Qed.

Lemma split_no_sep (sep : code_unit) (s : jsstring) :
  ~ In sep s -> split sep s = (s, []).
Proof.
  intros H. rewrite <- (app_nil_r s) at 1.
  rewrite split_app by assumption. simpl. now rewrite app_nil_r.
Qed.

(** The header and the second element of [(header ++ "," ++ data).split(",")]
    when neither part holds a comma. *)
Lemma split_header_data (header data : jsstring) :
  ~ In comma header -> ~ In comma data ->
  split comma (header ++ comma :: data) = (header, [data]).
Proof.
  intros Hh Hd. rewrite split_app by assumption.
  rewrite split_cons_sep, (split_no_sep _ _ Hd). simpl.
  now rewrite app_nil_r.
Qed.

Lemma lazy_dots_exact (m rest : jsstring) :
  Forall (fun c => c <> semicolon /\ dot c) m ->
  lazy_dots_then_semicolon (m ++ semicolon :: rest) = Some m.
Proof.
  induction 1 as [|c m [Hsemi Hdot] _ IH]; simpl.
  - reflexivity.
  - destruct (N.eqb_spec c semicolon); [contradiction|].
    unfold dot in Hdot. now rewrite Hdot, IH.
Qed.

Lemma lazy_dots_inv (s m : jsstring) :
  lazy_dots_then_semicolon s = Some m ->
  exists post, s = m ++ semicolon :: post /\ Forall dot m.
Proof.
  revert m; induction s as [|c s IH]; intros m; simpl; [discriminate|].
  destruct (N.eqb_spec c semicolon) as [->|Hc].
  - intros [= <-]. now exists s.
  - destruct (is_line_terminator c) eqn:Hlt; [discriminate|].
    destruct (lazy_dots_then_semicolon s) as [m'|]; [|discriminate].
    intros [= <-]. destruct (IH m' eq_refl) as (post & -> & Hm').
    exists post; split; [reflexivity|]. now constructor.
Qed.

Lemma match_skips_prefix (pre rest : jsstring) :
  ~ In colon pre ->
  match_colon_semicolon (pre ++ rest) = match_colon_semicolon rest.
Proof.
  induction pre as [|c pre IH]; intros Hnot; simpl; [reflexivity|].
  destruct (N.eqb_spec c colon) as [->|_].
  - exfalso; apply Hnot; now left.
  - apply IH. intros Hin; apply Hnot; now right.
Qed.

Lemma match_at_colon (r : jsstring) :
  match_colon_semicolon (colon :: r)
  = match lazy_dots_then_semicolon r with
    | Some m => Some m
    | None => match_colon_semicolon r
    end.
Proof. reflexivity. Qed.

Lemma match_inv (s m : jsstring) :
  match_colon_semicolon s = Some m ->
  exists pre post, s = pre ++ colon :: m ++ semicolon :: post /\ Forall dot m.
Proof.
  induction s as [|c s IH]; simpl; [discriminate|].
  assert (Hrec : match_colon_semicolon s = Some m ->
                 exists pre post,
                   c :: s = pre ++ colon :: m ++ semicolon :: post
                   /\ Forall dot m).
  { intros H. destruct (IH H) as (pre & post & -> & Hm).
    now exists (c :: pre), post. }
  destruct (N.eqb_spec c colon) as [->|_]; [|exact Hrec].
  destruct (lazy_dots_then_semicolon s) as [m'|] eqn:Hlazy; [|exact Hrec].
  intros [= <-]. destruct (lazy_dots_inv _ _ Hlazy) as (post & -> & Hm').
  now exists [], post.
Qed.

(** [trim] *)

Lemma trimStart_split (s : jsstring) :
  exists l, s = l ++ trimStart s /\ Forall blank l.
Proof.
  induction s as [|c s (l & Hs & Hl)]; simpl.
  - now exists [].
  - destruct (is_trimmed c) eqn:Hc.
    + exists (c :: l). split; [simpl; now f_equal | now constructor].
    + now exists [].
Qed.

Lemma trimStart_head (s : jsstring) (c : code_unit) (t : jsstring) :
  trimStart s = c :: t -> is_trimmed c = false.
Proof.
  induction s as [|d s IH]; simpl; [discriminate|].
  destruct (is_trimmed d) eqn:Hd; [exact IH|].
  now intros [= <- _].
Qed.

Lemma trimStart_blank (l s : jsstring) :
  Forall blank l -> trimStart (l ++ s) = trimStart s.
Proof.
  induction 1 as [|c l Hc _ IH]; simpl; [reflexivity|].
  unfold blank in Hc. now rewrite Hc.
Qed.

Lemma trimStart_fixed (c : code_unit) (s : jsstring) :
  is_trimmed c = false -> trimStart (c :: s) = c :: s.
Proof. intros H; simpl; now rewrite H. Qed.

Lemma trimStart_all_blank (l : jsstring) : Forall blank l -> trimStart l = [].
Proof.
  intros H. rewrite <- (app_nil_r l). now rewrite trimStart_blank.
Qed.

Lemma trimEnd_split (s : jsstring) :
  exists r, s = trimEnd s ++ r /\ Forall blank r.
Proof.
  destruct (trimStart_split (rev s)) as (l & Hs & Hl).
  exists (rev l). split; [|now apply Forall_rev].
  unfold trimEnd. rewrite <- rev_app_distr, <- Hs. now rewrite rev_involutive.
Qed.

(** [trim] cuts a blank prefix and a blank suffix off its argument. *)
Lemma trim_decompose (s : jsstring) :
  exists l r, s = l ++ trim s ++ r /\ Forall blank l /\ Forall blank r.
Proof.
  destruct (trimStart_split s) as (l & Hs & Hl).
  destruct (trimEnd_split (trimStart s)) as (r & Hr & Hblank).
  exists l, r. unfold trim. now rewrite <- Hr.
Qed.

Lemma trim_first (s : jsstring) (c : code_unit) (t : jsstring) :
  trim s = c :: t -> is_trimmed c = false.
Proof.
  intros H. destruct (trimEnd_split (trimStart s)) as (r & Hr & _).
  fold (trim s) in Hr. rewrite H in Hr. simpl in Hr.
  exact (trimStart_head _ _ _ Hr).
Qed.

Lemma trim_last (s t : jsstring) (c : code_unit) :
  trim s = t ++ [c] -> is_trimmed c = false.
Proof.
  unfold trim, trimEnd. intros H.
  apply (f_equal (@rev code_unit)) in H.
  rewrite rev_involutive, rev_app_distr in H. simpl in H.
  exact (trimStart_head _ _ _ H).
Qed.

(** What is left has no blank at either end, and it is the only such
    middle part. *)
Lemma trim_unique (l m r : jsstring) :
  Forall blank l -> Forall blank r ->
  (forall c t, m = c :: t -> is_trimmed c = false) ->
  (forall t c, m = t ++ [c] -> is_trimmed c = false) ->
  trim (l ++ m ++ r) = m.
Proof.
  intros Hl Hr Hfirst Hlast. unfold trim. rewrite trimStart_blank by assumption.
  destruct m as [|c t]; simpl app.
  - now rewrite trimStart_all_blank.
  - rewrite (trimStart_fixed c (t ++ r)) by now apply (Hfirst c t).
    unfold trimEnd. change (c :: t ++ r) with ((c :: t) ++ r).
    rewrite rev_app_distr, trimStart_blank by now apply Forall_rev.
    destruct (rev (c :: t)) as [|d u] eqn:Hrev.
    + apply (f_equal (@List.length code_unit)) in Hrev.
      rewrite List.length_rev in Hrev. discriminate.
    + assert (Hm : c :: t = rev u ++ [d]).
      { rewrite <- (rev_involutive (c :: t)), Hrev. reflexivity. }
      rewrite (trimStart_fixed d u) by now apply (Hlast (rev u) d).
      simpl. now rewrite Hm.
Qed.

End StringFacts.

(** ** The image codec *)

Module CodecSpec.
Import Codec StringFacts.

(** Refutes [H : In c l] for a literal [l] that does not hold [c]. *)
Ltac not_a_member H :=
  simpl in H; repeat destruct H as [H | H]; discriminate || tauto.

Lemma base64_digit_unit (i : N) : base64_unit (base64_digit i).
Proof.
  unfold base64_digit, base64_unit.
  destruct (nth_in_or_default (N.to_nat (i mod 64)) base64_alphabet base64_pad)
    as [Hin | ->]; [now right | now left].
Qed.

Lemma base64_units : forall bytes, Forall base64_unit (base64 bytes).
Proof.
  assert (Hpad : base64_unit base64_pad) by now left.
  fix IH 1. intros [|a [|b [|c r]]]; simpl.
  - constructor.
  - repeat (apply Forall_cons; [apply base64_digit_unit || exact Hpad|]).
    constructor.
  - repeat (apply Forall_cons; [apply base64_digit_unit || exact Hpad|]).
    constructor.
  - repeat (apply Forall_cons; [apply base64_digit_unit|]). apply IH.
Qed.

Lemma base64_unit_check (P : code_unit -> bool) (c : code_unit) :
  forallb P (base64_pad :: base64_alphabet) = true ->
  base64_unit c -> P c = true.
Proof. intros Hall Hin. rewrite forallb_forall in Hall. now apply Hall. Qed.

Lemma base64_no_comma (bytes : list N) : ~ In comma (base64 bytes).
Proof.
  intros Hin. pose proof (base64_units bytes) as Hall.
  rewrite Forall_forall in Hall. apply Hall in Hin.
  apply (base64_unit_check (fun c => negb (c =? comma))) in Hin;
    [discriminate | reflexivity].
Qed.

Lemma data_url_parts (mime data : jsstring) :
  data_url mime data
  = (lit "data" ++ colon :: mime ++ semicolon :: lit "base64") ++ comma :: data.
Proof.
  unfold data_url. change (lit "data:") with (lit "data" ++ [colon]).
  change (lit ";base64,") with (semicolon :: lit "base64" ++ [comma]).
  repeat (rewrite <- app_assoc; simpl). reflexivity.
Qed.

Lemma header_no_comma (mime : jsstring) :
  Forall (fun c => c <> semicolon /\ c <> comma /\ dot c) mime ->
  ~ In comma (lit "data" ++ colon :: mime ++ semicolon :: lit "base64").
Proof.
  intros Hm Hin. apply in_app_or in Hin as [Hin | [Hin | Hin]].
  - not_a_member Hin.
  - discriminate.
  - apply in_app_or in Hin as [Hin | Hin].
    + rewrite Forall_forall in Hm. now destruct (Hm _ Hin) as (_ & Hc & _).
    + not_a_member Hin.
Qed.

Lemma match_header (mime : jsstring) :
  Forall (fun c => c <> semicolon /\ c <> comma /\ dot c) mime ->
  match_colon_semicolon (lit "data" ++ colon :: mime ++ semicolon :: lit "base64")
  = Some mime.
Proof.
  intros Hm. rewrite match_skips_prefix.
  - rewrite match_at_colon, lazy_dots_exact; [reflexivity|].
    eapply Forall_impl; [|exact Hm]. now intros c (? & _ & ?).
  - intros Hin. not_a_member Hin.
Qed.

(** Decoding [data:<mime>;base64,<data>]. *)
Lemma onload_data_url (mime data : jsstring) :
  well_formed_mime mime -> ~ In comma data ->
  onload (Some (data_url mime data))
  = Resolved {| base64Data := Some data;
                mimeType := mime;
                previewUrl := data_url mime data |}.
Proof.
  intros [Hne Hm] Hd. unfold onload.
  rewrite (data_url_parts mime data) at 1.
  rewrite split_header_data by (assumption || now apply header_no_comma).
  rewrite match_header by assumption.
  destruct mime; [contradiction|reflexivity].
Qed.

(** C1. A well-formed data URL [data:<mime>;base64,<data>] decodes to the
    record whose [mimeType] is [<mime>], whose [base64Data] is the segment
    after the comma and whose [previewUrl] is the URL itself; in particular
    decoding what the reader encodes from a file gives the file's type. *)
Theorem decode_well_formed_data_url (mime : jsstring) :
  well_formed_mime mime ->
  (forall reader file data,
      ~ In comma data ->
      reader file = OnLoad (Some (data_url mime data)) ->
      fileToImageInfo reader file
      = Resolved {| base64Data := Some data;
                    mimeType := mime;
                    previewUrl := data_url mime data |})
  /\ (forall bytes,
         fileToImageInfo reader_loads
           {| file_bytes := bytes; file_type := mime |}
         = Resolved {| base64Data := Some (base64 bytes);
                       mimeType := mime;
                       previewUrl := encode bytes mime |}).
Proof.
  intros Hwf. split.
  - intros reader file data Hd Hload. unfold fileToImageInfo.
    rewrite Hload. now apply onload_data_url.
  - intros bytes. unfold fileToImageInfo, reader_loads, encode. simpl.
    apply onload_data_url; [assumption | apply base64_no_comma].
Qed.

Lemma decode_well_formed_data_url_witness :
  well_formed_mime (lit "image/png")
  /\ fileToImageInfo reader_loads
       {| file_bytes := [137; 80; 78; 71]; file_type := lit "image/png" |}
     = Resolved {| base64Data := Some (lit "iVBORw==");
                   mimeType := lit "image/png";
                   previewUrl := lit "data:image/png;base64,iVBORw==" |}.
Proof.
  assert (Hwf : well_formed_mime (lit "image/png")).
  { split; [discriminate|].
    repeat constructor; solve [discriminate | reflexivity]. }
  split; [exact Hwf|].
  exact (proj2 (decode_well_formed_data_url (lit "image/png") Hwf)
           [137; 80; 78; 71]).
Defined.

Lemma envelope_has_colon (header : jsstring) :
  has_mime_envelope header -> In colon header.
Proof.
  intros (pre & mime & post & -> & _). apply in_or_app. right. now left.
Qed.

Lemma split_header (header rest : jsstring) :
  ~ In comma header ->
  rest = [] \/ (exists r, rest = comma :: r) ->
  fst (split comma (header ++ rest)) = header.
Proof.
  intros Hh Hrest. rewrite split_app by assumption. simpl.
  destruct Hrest as [-> | (r & ->)].
  - simpl. apply app_nil_r.
  - rewrite split_cons_sep. simpl. apply app_nil_r.
Qed.

Lemma match_without_envelope (header : jsstring) :
  ~ has_mime_envelope header ->
  match_colon_semicolon header = None
  \/ match_colon_semicolon header = Some [].
Proof.
  intros Hno. destruct (match_colon_semicolon header) as [[|c m]|] eqn:Hm.
  - now right.
  - destruct (match_inv _ _ Hm) as (pre & post & Hh & Hdot).
    exfalso. apply Hno. exists pre, (c :: m), post.
    split; [exact Hh|]. split; [discriminate | exact Hdot].
  - now left.
Qed.

(** C6. When the header of the data URL, the part before its first comma,
    holds no envelope [:<mime>;], decoding is rejected with the error
    "Could not determine image MIME type." and yields no record. *)
Theorem decode_without_envelope_fails
  (reader : File -> ReaderEvent) (file : File) (header rest : jsstring) :
  reader file = OnLoad (Some (header ++ rest)) ->
  ~ In comma header ->
  rest = [] \/ (exists r, rest = comma :: r) ->
  ~ has_mime_envelope header ->
  fileToImageInfo reader file = Rejected (new_Error could_not_determine)
  /\ forall info, fileToImageInfo reader file <> Resolved info.
Proof.
  intros Hload Hh Hrest Hno.
  assert (Hrej : fileToImageInfo reader file
                 = Rejected (new_Error could_not_determine)).
  { unfold fileToImageInfo, onload. rewrite Hload.
    pose proof (split_header header rest Hh Hrest) as Hfst.
    destruct (split comma (header ++ rest)) as [h others].
    simpl in Hfst. subst h.
    now destruct (match_without_envelope header Hno) as [-> | ->]. }
  split; [exact Hrej|]. intros info. rewrite Hrej. discriminate.
Qed.

Lemma decode_without_envelope_fails_witness :
  fileToImageInfo (fun _ => OnLoad (Some (lit "data,AAAA")))
    {| file_bytes := [0; 0; 0]; file_type := [] |}
  = Rejected (new_Error could_not_determine).
Proof.
  refine (proj1 (decode_without_envelope_fails
                   (fun _ => OnLoad (Some (lit "data,AAAA")))
                   {| file_bytes := [0; 0; 0]; file_type := [] |}
                   (lit "data") (lit ",AAAA") eq_refl _ _ _)).
  - intros H. not_a_member H.
  - right. now exists (lit "AAAA").
  - intros H. apply envelope_has_colon in H. not_a_member H.
Defined.

(** Outside the premise of C6: a URL with an envelope and no comma still
    gives a record, whose [base64Data] is [undefined]. *)
Lemma no_comma_leaves_payload_undefined :
  onload (Some (lit "data:image/png;base64"))
  = Resolved {| base64Data := None;
                mimeType := lit "image/png";
                previewUrl := lit "data:image/png;base64" |}.
Proof. reflexivity. Qed.

End CodecSpec.

(** ** The description client *)

Module ClientSpec.
Import Codec OllamaService StringFacts.

Section WithEngine.
Context {E : Engine}.

(** A run is the request, and on a throw the log entry and the error of
    the [catch] block. *)
Lemma run_of_completion (fetch : Network) (imageInfo : ImageInfo) :
  generateDescriptionFromImage fetch imageInfo
  = match snd (try_block fetch imageInfo) with
    | Normal text => ([the_request imageInfo], Resolved text)
    | Throw t =>
        ([the_request imageInfo; the_log t], Rejected (snd (catch_block t)))
    end.
Proof.
  unfold generateDescriptionFromImage, try_block. simpl snd.
  now destruct (bind _ handle_response).
Qed.

Lemma try_block_response (fetch : Network) (imageInfo : ImageInfo)
  (response : Response) :
  fetch OLLAMA_API_URL (request_init imageInfo) = Resolved response ->
  snd (try_block fetch imageInfo) = handle_response response.
Proof. intros H. unfold try_block. simpl snd. now rewrite H. Qed.

Lemma try_block_rejected (fetch : Network) (imageInfo : ImageInfo)
  (t : Thrown) :
  fetch OLLAMA_API_URL (request_init imageInfo) = Rejected t ->
  snd (try_block fetch imageInfo) = Throw t.
Proof. intros H. unfold try_block. simpl snd. now rewrite H. Qed.

(** *** The request *)

Lemma quote_unit_plain (c : code_unit) :
  is_plain c = true -> quote_unit c = [c] /\ is_lead_surrogate c = false.
Proof.
  unfold is_plain. intros H.
  repeat (apply andb_prop in H as [H ?]).
  rewrite negb_true_iff in *. apply N.leb_le in H.
  split; [|assumption]. unfold quote_unit.
  repeat match goal with
         | |- context [?a =? ?b] =>
             destruct (N.eqb_spec a b);
             [subst; solve [lia | discriminate]|]
         end.
  assert (Hlt : (c <? 32) = false) by now apply N.ltb_ge.
  now rewrite Hlt, H0, H1.
Qed.

Lemma quote_units_plain (s : jsstring) :
  forallb is_plain s = true -> quote_units s = s.
Proof.
  induction s as [|c s IH]; simpl; [reflexivity|].
  intros H. apply andb_prop in H as [Hc Hs].
  destruct (quote_unit_plain c Hc) as [-> ->]. simpl.
  now rewrite IH.
Qed.

Lemma body_on_the_wire (imageInfo : ImageInfo) :
  body (request_init imageInfo)
  = wire_body (stringify_element (base64Data imageInfo)).
Proof.
  unfold request_init, request_body, JSON_stringify, wire_body, member.
  simpl body. simpl map. simpl join_elements.
  generalize (stringify_element (base64Data imageInfo)) as element.
  intros element. cbn. rewrite <- ?app_assoc. reflexivity.
Qed.

(** C2. Every run issues exactly one request: a POST to the fixed endpoint
    whose body is the JSON text of the fixed model, the fixed prompt,
    [images] holding the payload of the record and nothing else, and
    [stream] false. *)
Theorem exactly_one_post_request (fetch : Network) (imageInfo : ImageInfo) :
  requests (fst (generateDescriptionFromImage fetch imageInfo))
  = [Fetch (lit "http://localhost:11434/api/generate") (request_init imageInfo)]
  /\ method (request_init imageInfo) = lit "POST"
  /\ body (request_init imageInfo)
     = JSON_stringify {| model := lit "llava";
                         body_prompt := prompt;
                         images := [base64Data imageInfo];
                         stream := false |}
  /\ body (request_init imageInfo)
     = wire_body (stringify_element (base64Data imageInfo))
  /\ (forall payload,
         base64Data imageInfo = Some payload ->
         forallb is_plain payload = true ->
         body (request_init imageInfo) = wire_body (in_quotes payload)).
Proof.
  split; [|split; [reflexivity|split; [reflexivity|split]]].
  - rewrite run_of_completion.
    now destruct (snd (try_block fetch imageInfo)).
  - apply body_on_the_wire.
  - intros payload Hp Hplain. rewrite body_on_the_wire, Hp. simpl.
    unfold quote_json_string, in_quotes. now rewrite quote_units_plain.
Qed.

(** *** Transport failures *)

Lemma server_error_starts (status : N) (text : jsstring) :
  exists rest, server_error_message status text = 79 :: rest.
Proof. unfold server_error_message. simpl. eauto. Qed.

(** The half of C4 that holds. When [fetch] is rejected with a TypeError,
    as it is on a refused connection or a cross-origin rejection, the
    client logs the failure and fails with the connectivity message, which
    names both causes, ends with the command
    [OLLAMA_ORIGINS='*' ollama serve] and is none of the other messages of
    the client. That the error tells a transport failure from a failure of
    the application does not hold, as the runs at the end of the file
    show. *)
Theorem transport_failure_is_connectivity_error
  (fetch : Network) (imageInfo : ImageInfo) (m : jsstring) :
  fetch OLLAMA_API_URL (request_init imageInfo)
  = Rejected (ErrorObject TypeError m) ->
  generateDescriptionFromImage fetch imageInfo
  = ([the_request imageInfo; the_log (ErrorObject TypeError m)],
     Rejected (new_Error connectivity_message))
  /\ contains connectivity_message (lit "Is it running?")
  /\ contains connectivity_message (lit "Are you getting a CORS error?")
  /\ contains connectivity_message (lit "OLLAMA_ORIGINS='*' ollama serve")
  /\ (forall status text,
         connectivity_message <> server_error_message status text)
  /\ connectivity_message <> empty_description_message
  /\ connectivity_message <> unexpected_message.
Proof.
  intros Hfetch. repeat split.
  - rewrite run_of_completion, (try_block_rejected _ _ _ Hfetch). reflexivity.
  - apply includes_contains. reflexivity.
  - apply includes_contains. reflexivity.
  - apply includes_contains. reflexivity.
  - intros status text H.
    destruct (server_error_starts status text) as (rest & Hrest).
    rewrite Hrest in H. discriminate H.
  - discriminate.
  - discriminate.
Qed.

(** *** Responses that are not ok *)

(** What [response.json().catch(...)] settles to. *)
Lemma await_error_body (response : Response) :
  await (catch (json response)
           (JObject [(lit "error", JString could_not_parse)]))
  = Normal (match json response with
            | Resolved errorBody => errorBody
            | Rejected _ => JObject [(lit "error", JString could_not_parse)]
            end).
Proof. now destruct (json response). Qed.

Lemma run_with_response (fetch : Network) (imageInfo : ImageInfo)
  (response : Response) :
  fetch OLLAMA_API_URL (request_init imageInfo) = Resolved response ->
  generateDescriptionFromImage fetch imageInfo
  = match handle_response response with
    | Normal text => ([the_request imageInfo], Resolved text)
    | Throw t =>
        ([the_request imageInfo; the_log t], Rejected (snd (catch_block t)))
    end.
Proof.
  intros H. now rewrite run_of_completion, (try_block_response _ _ _ H).
Qed.

(** A body that parsed and whose [error] converts to [text]. *)
Lemma server_error_of_body (fetch : Network) (imageInfo : ImageInfo)
  (response : Response) (errorBody : Json) (error : Value) (text : jsstring) :
  fetch OLLAMA_API_URL (request_init imageInfo) = Resolved response ->
  ok response = false ->
  json response = Resolved errorBody ->
  Get errorBody (lit "error") = Normal error ->
  ToString error = Normal text ->
  generateDescriptionFromImage fetch imageInfo
  = ([the_request imageInfo;
      the_log (new_Error (server_error_message (status response) text))],
     Rejected (new_Error (server_error_message (status response) text))).
Proof.
  intros Hfetch Hok Hjson Hget Htext.
  rewrite (run_with_response _ _ _ Hfetch). unfold handle_response.
  rewrite Hok, await_error_body, Hjson. simpl.
  rewrite Hget. simpl. rewrite Htext. reflexivity.
Qed.

(** A body carrying a message: the message is in the error. *)
Lemma server_error_with_message (fetch : Network) (imageInfo : ImageInfo)
  (response : Response) (fields : list (jsstring * Json)) (message : jsstring) :
  fetch OLLAMA_API_URL (request_init imageInfo) = Resolved response ->
  ok response = false ->
  json response = Resolved (JObject fields) ->
  own_property fields (lit "error") = Some (JString message) ->
  let text := server_error_message (status response) message in
  snd (generateDescriptionFromImage fetch imageInfo)
  = Rejected (new_Error text)
  /\ contains text (number_to_string (status response))
  /\ contains text message.
Proof.
  intros Hfetch Hok Hjson Hown text.
  rewrite (server_error_of_body fetch imageInfo response (JObject fields)
             (Some (JString message)) message)
    by (assumption || reflexivity || (unfold Get; now rewrite Hown)).
  repeat split; unfold text, server_error_message.
  - apply contains_intro.
  - rewrite 2 app_assoc. apply contains_intro.
Qed.

(** A body that does not parse: the placeholder is in the error, and the
    error is still the server error. *)
Lemma server_error_unparseable (fetch : Network) (imageInfo : ImageInfo)
  (response : Response) (t : Thrown) :
  fetch OLLAMA_API_URL (request_init imageInfo) = Resolved response ->
  ok response = false ->
  json response = Rejected t ->
  let text := server_error_message (status response) could_not_parse in
  snd (generateDescriptionFromImage fetch imageInfo)
  = Rejected (new_Error text)
  /\ contains text (number_to_string (status response))
  /\ contains text (lit "Could not parse error response.").
Proof.
  intros Hfetch Hok Hjson text.
  rewrite (run_with_response _ _ _ Hfetch). unfold handle_response.
  rewrite Hok, await_error_body, Hjson.
  repeat split; unfold text, server_error_message.
  - apply contains_intro.
  - rewrite 2 app_assoc. apply contains_intro.
Qed.

(** A parsed body other than [null] that has no [error]: the error says
    [undefined]. *)
Lemma server_error_without_field (fetch : Network) (imageInfo : ImageInfo)
  (response : Response) (errorBody : Json) :
  fetch OLLAMA_API_URL (request_init imageInfo) = Resolved response ->
  ok response = false ->
  json response = Resolved errorBody ->
  errorBody <> JNull ->
  Get errorBody (lit "error") = Normal None ->
  let text := server_error_message (status response) (lit "undefined") in
  snd (generateDescriptionFromImage fetch imageInfo)
  = Rejected (new_Error text)
  /\ contains text (lit "undefined").
Proof.
  intros Hfetch Hok Hjson _ Hget text.
  rewrite (server_error_of_body fetch imageInfo response errorBody None
             (lit "undefined")) by (assumption || reflexivity).
  split; [reflexivity|]. unfold text, server_error_message.
  rewrite 2 app_assoc. apply contains_intro.
Qed.

(** *** Responses that are ok *)

Lemma handle_ok (response : Response) (data : Json) (field : Value) :
  ok response = true ->
  json response = Resolved data ->
  Get data (lit "response") = Normal field ->
  handle_response response
  = if ToBoolean field then call_trim field
    else Throw (new_Error empty_description_message).
Proof.
  intros Hok Hjson Hget. unfold handle_response.
  rewrite Hok, Hjson. simpl. now rewrite Hget.
Qed.

(** A body whose [response] reads as [undefined] or as the empty string. *)
Lemma empty_description_of_field (fetch : Network) (imageInfo : ImageInfo)
  (response : Response) (data : Json) (field : Value) :
  fetch OLLAMA_API_URL (request_init imageInfo) = Resolved response ->
  ok response = true ->
  json response = Resolved data ->
  Get data (lit "response") = Normal field ->
  field = None \/ field = Some (JString []) ->
  generateDescriptionFromImage fetch imageInfo
  = ([the_request imageInfo; the_log (new_Error empty_description_message)],
     Rejected (new_Error empty_description_message)).
Proof.
  intros Hfetch Hok Hjson Hget Hfield.
  rewrite (run_with_response _ _ _ Hfetch), (handle_ok _ _ _ Hok Hjson Hget).
  now destruct Hfield as [-> | ->].
Qed.

(** C8. When the response is ok and the [response] field of its body is a
    non-empty string, the client returns that string trimmed, and nothing
    is logged: the result is the field without a prefix and a suffix made
    of white space and line terminators only, and it neither starts nor
    ends with one. *)
Theorem description_is_trimmed_text
  (fetch : Network) (imageInfo : ImageInfo)
  (response : Response) (data : Json) (s : jsstring) :
  fetch OLLAMA_API_URL (request_init imageInfo) = Resolved response ->
  ok response = true ->
  json response = Resolved data ->
  Get data (lit "response") = Normal (Some (JString s)) ->
  s <> [] ->
  generateDescriptionFromImage fetch imageInfo
  = ([the_request imageInfo], Resolved (trim s))
  /\ (exists l r, s = l ++ trim s ++ r /\ Forall blank l /\ Forall blank r)
  /\ (forall c t, trim s = c :: t -> is_trimmed c = false)
  /\ (forall t c, trim s = t ++ [c] -> is_trimmed c = false).
Proof.
  intros Hfetch Hok Hjson Hget Hs. split; [|split; [|split]].
  - rewrite (run_with_response _ _ _ Hfetch), (handle_ok _ _ _ Hok Hjson Hget).
    destruct s; [contradiction|reflexivity].
  - apply trim_decompose.
  - apply trim_first.
  - apply trim_last.
Qed.

(** *** The catch block *)

Lemma catch_block_cases (t : Thrown) :
  snd (catch_block t)
  = match t with
    | ErrorObject TypeError _ => new_Error connectivity_message
    | ErrorObject _ message => new_Error message
    | NonError _ => new_Error unexpected_message
    end.
Proof. now destruct t as [[] m|w]. Qed.

Lemma run_of_throw (fetch : Network) (imageInfo : ImageInfo) (t : Thrown) :
  snd (try_block fetch imageInfo) = Throw t ->
  generateDescriptionFromImage fetch imageInfo
  = ([the_request imageInfo; the_log t], Rejected (snd (catch_block t))).
Proof. intros H. now rewrite run_of_completion, H. Qed.

End WithEngine.

End ClientSpec.

(** ** The App handler *)

Module AppSpec.
Import Codec OllamaService App StringFacts ClientSpec.

Section WithEngine.
Context {E : Engine}.

(** C5. With no image record in the state, generating a description sets
    the error shown to the user to "Please upload an image first.",
    changes nothing else, and issues no request: the run has no event. *)
Theorem no_image_no_request (fetch : Network) (st : AppState) :
  imageInfo st = None ->
  handleGenerateDescription fetch st
  = ([], {| imageInfo := None;
            description := description st;
            isLoading := isLoading st;
            error := Some (lit "Please upload an image first.") |})
  /\ requests (fst (handleGenerateDescription fetch st)) = [].
Proof.
  intros Hnone. unfold handleGenerateDescription. rewrite Hnone.
  unfold setError. rewrite Hnone. now split.
Qed.

(** C9, as the code has it. Whatever the [try] block throws is logged by
    the client before anything else happens to it. An Error that is not a
    TypeError is thrown again under its own message, and only a thrown
    value that is not an Error is replaced by the generic message
    "An unexpected error occurred while communicating with the Ollama API.".
    The handler of the App catches what the client throws, logs it, shows
    "Failed to generate description. " followed by its message and clears
    the loading flag. *)
Theorem failures_are_logged_and_rethrown
  (fetch : Network) (info : ImageInfo) (t : Thrown) :
  snd (try_block fetch info) = Throw t ->
  logged (fst (generateDescriptionFromImage fetch info)) = [t]
  /\ (forall kind message,
         t = ErrorObject kind message -> kind <> TypeError ->
         snd (generateDescriptionFromImage fetch info)
         = Rejected (new_Error message))
  /\ (forall what,
         t = NonError what ->
         snd (generateDescriptionFromImage fetch info)
         = Rejected (new_Error unexpected_message))
  /\ (forall st,
         imageInfo st = Some info ->
         exists message,
           snd (generateDescriptionFromImage fetch info)
           = Rejected (new_Error message)
           /\ snd (handleGenerateDescription fetch st)
              = {| imageInfo := Some info;
                   description := [];
                   isLoading := false;
                   error := Some (failed_to_generate message) |}
           /\ logged (fst (handleGenerateDescription fetch st))
              = [t; new_Error message]).
Proof.
  intros Hthrow. pose proof (run_of_throw _ _ _ Hthrow) as Hrun.
  split; [|split; [|split]].
  - now rewrite Hrun.
  - intros kind message -> Hkind. rewrite Hrun, catch_block_cases.
    now destruct kind.
  - intros what ->. now rewrite Hrun.
  - intros st Hst.
    assert (Hmsg : exists message, snd (catch_block t) = new_Error message).
    { rewrite catch_block_cases. destruct t as [[] m|w]; eauto. }
    destruct Hmsg as (message & Hmsg). exists message.
    unfold handleGenerateDescription. rewrite Hst, Hrun, Hmsg.
    unfold setIsLoading, setError, setDescription. simpl. now rewrite Hst.
Qed.

End WithEngine.

End AppSpec.

(** ** Concrete runs *)

Module Runs.
Import Codec OllamaService App Samples StringFacts ClientSpec AppSpec.

#[local] Existing Instance natural_engine.

Lemma exactly_one_post_request_witness :
  forallb is_plain (lit "iVBORw==") = true
  /\ body (request_init png) = wire_body (in_quotes (lit "iVBORw==")).
Proof.
  split; [reflexivity|].
  exact (proj2 (proj2 (proj2 (proj2
           (exactly_one_post_request (answers cat_on_a_mat) png))))
           (lit "iVBORw==") eq_refl eq_refl).
Defined.

Lemma transport_failure_is_connectivity_error_witness :
  generateDescriptionFromImage (refuses connection_refused) png
  = ([the_request png; the_log connection_refused],
     Rejected (new_Error connectivity_message)).
Proof.
  exact (proj1 (transport_failure_is_connectivity_error
                  (refuses connection_refused) png (lit "Failed to fetch")
                  eq_refl)).
Defined.

Lemma no_image_no_request_witness :
  handleGenerateDescription (answers cat_on_a_mat) nothing_uploaded
  = ([], {| imageInfo := None; description := []; isLoading := false;
            error := Some (lit "Please upload an image first.") |}).
Proof.
  exact (proj1 (no_image_no_request (answers cat_on_a_mat) nothing_uploaded
                  eq_refl)).
Defined.

Lemma description_is_trimmed_text_witness :
  generateDescriptionFromImage (answers cat_on_a_mat) png
  = ([the_request png], Resolved (lit "A cat on a mat.")).
Proof.
  refine (proj1 (description_is_trimmed_text (answers cat_on_a_mat) png
                   cat_on_a_mat
                   (JObject [(lit "response",
                              JString (lit "  A cat on a mat.  "))])
                   (lit "  A cat on a mat.  ")
                   eq_refl eq_refl eq_refl eq_refl _)).
  discriminate.
Defined.

Lemma failures_are_logged_and_rethrown_witness :
  logged (fst (generateDescriptionFromImage (answers truncated_body) png))
  = [ErrorObject SyntaxError (lit "Unexpected end of JSON input")].
Proof.
  exact (proj1 (failures_are_logged_and_rethrown (answers truncated_body) png
                  (ErrorObject SyntaxError (lit "Unexpected end of JSON input"))
                  eq_refl)).
Defined.

(** Against C9 as the specification words it: a status 200 whose body is
    not JSON makes [response.json()] reject with a SyntaxError; the failure
    is none of the named ones, and the client throws the SyntaxError's own
    message, not the generic one. *)
Lemma syntax_error_keeps_its_message :
  snd (generateDescriptionFromImage (answers truncated_body) png)
  = Rejected (new_Error (lit "Unexpected end of JSON input"))
  /\ ~ other_failures_are_made_generic.
Proof.
  split; [reflexivity|]. intros Hall.
  specialize (Hall (answers truncated_body) png
                (ErrorObject SyntaxError (lit "Unexpected end of JSON input"))
                eq_refl).
  assert (Hgeneric : snd (generateDescriptionFromImage
                            (answers truncated_body) png)
                     = Rejected (new_Error unexpected_message)).
  { apply Hall. intros [(status & text & H) | [H | H]]; discriminate H. }
  discriminate Hgeneric.
Qed.

(** C3 at a status 500 whose body is the JSON text [null]: reading
    [errorBody.error] throws a TypeError inside the [try] block, and the
    [catch] block reports it as a failure to connect; the status is not in
    the message. *)
Theorem null_error_body_is_reported_as_connectivity :
  ok null_error_body = false
  /\ generateDescriptionFromImage (answers null_error_body) png
     = ([the_request png;
         the_log (engine_TypeError (ReadOfNull (lit "error")))],
        Rejected (new_Error connectivity_message))
  /\ ~ contains connectivity_message (number_to_string 500).
Proof.
  split; [reflexivity|]. split; [reflexivity|].
  apply not_contains. reflexivity.
Qed.

(** C10 at a status 404 whose body is the JSON text [null], which parses
    and has no [error] member: the message of the client does not hold
    "undefined", it is the connectivity message. *)
Theorem null_body_message_lacks_undefined :
  json null_not_found_body = Resolved JNull
  /\ Get JNull (lit "error")
     = Throw (engine_TypeError (ReadOfNull (lit "error")))
  /\ snd (generateDescriptionFromImage (answers null_not_found_body) png)
     = Rejected (new_Error connectivity_message)
  /\ ~ contains connectivity_message (lit "undefined").
Proof.
  split; [reflexivity|]. split; [reflexivity|]. split; [reflexivity|].
  apply not_contains. reflexivity.
Qed.

(** C7 at a status 200 whose body is the JSON text [null], in which the
    description is absent: reading [data.response] throws a TypeError, and
    the client fails with the connectivity message, not with the message
    of an empty description. *)
Theorem null_success_body_is_not_empty_response :
  ok null_success_body = true
  /\ generateDescriptionFromImage (answers null_success_body) png
     = ([the_request png;
         the_log (engine_TypeError (ReadOfNull (lit "response")))],
        Rejected (new_Error connectivity_message))
  /\ connectivity_message <> empty_description_message.
Proof.
  split; [reflexivity|]. split; [reflexivity|]. discriminate.
Qed.

(** The runs the specification lists as testable. *)

Example model_not_found_run :
  let text := server_error_message 500 (lit "model not found") in
  snd (generateDescriptionFromImage (answers model_not_found) png)
  = Rejected (new_Error text)
  /\ contains text (lit "500")
  /\ contains text (lit "model not found").
Proof.
  refine (server_error_with_message (answers model_not_found) png
            model_not_found _ (lit "model not found")
            eq_refl eq_refl eq_refl eq_refl).
Qed.

Example empty_response_run :
  snd (generateDescriptionFromImage (answers empty_response) png)
  = Rejected (new_Error (lit "The Ollama API returned an empty description.")).
Proof. reflexivity. Qed.

End Runs.

(** * Further properties *)

(** ** The decoder on arbitrary data URLs *)

Module CodecMore.
Import Codec StringFacts CodecSpec.

(** The array of [split]: a first segment without separator, and when there
    is a second one, it is the text between the first two separators. *)
Lemma split_shape (sep : code_unit) (s : jsstring) :
  ~ In sep (fst (split sep s))
  /\ match snd (split sep s) with
     | [] => s = fst (split sep s)
     | d :: _ =>
         ~ In sep d
         /\ exists rest,
              s = fst (split sep s) ++ sep :: d ++ rest
              /\ (rest = [] \/ exists r, rest = sep :: r)
     end.
Proof.
  induction s as [|c s [IHh IHt]]; simpl.
  - now split.
  - destruct (split sep s) as [h t]. simpl in IHh, IHt.
    destruct (N.eqb_spec c sep) as [->|Hc]; simpl.
    + split; [tauto|]. split; [exact IHh|].
      destruct t as [|d t].
      * exists []. subst s. rewrite app_nil_r. now split; [|left].
      * destruct IHt as (_ & rest & -> & _).
        exists (sep :: d ++ rest). split; [reflexivity|]. right. eauto.
    + split; [intros [Heq | Hin]; [now apply Hc | now apply IHh]|].
      destruct t as [|d t].
      * now subst s.
      * destruct IHt as (Hd & rest & -> & Hrest). split; [exact Hd|].
        now exists rest.
Qed.

Lemma lazy_dots_stops_early (s m : jsstring) :
  lazy_dots_then_semicolon s = Some m ->
  Forall (fun c => c <> semicolon /\ dot c) m.
Proof.
  revert m; induction s as [|c s IH]; intros m; simpl; [discriminate|].
  destruct (N.eqb_spec c semicolon) as [->|Hc].
  - intros [= <-]. constructor.
  - destruct (is_line_terminator c) eqn:Hlt; [discriminate|].
    destruct (lazy_dots_then_semicolon s) as [m'|]; [|discriminate].
    intros [= <-]. constructor; [now split | now apply IH].
Qed.

Lemma match_capture (s m : jsstring) :
  match_colon_semicolon s = Some m ->
  Forall (fun c => c <> semicolon /\ dot c) m
  /\ exists pre post, s = pre ++ colon :: m ++ semicolon :: post.
Proof.
  intros H. split.
  - induction s as [|c s IH]; simpl in H; [discriminate|].
    destruct (c =? colon); [|now apply IH].
    destruct (lazy_dots_then_semicolon s) as [m'|] eqn:Hlazy; [|now apply IH].
    injection H as <-. exact (lazy_dots_stops_early _ _ Hlazy).
  - destruct (match_inv _ _ H) as (pre & post & Hs & _). eauto.
Qed.

Lemma onload_resolved (url : jsstring) (info : ImageInfo) :
  onload (Some url) = Resolved info ->
  previewUrl info = url
  /\ base64Data info = hd_error (snd (split comma url))
  /\ mimeType info <> []
  /\ match_colon_semicolon (fst (split comma url)) = Some (mimeType info).
Proof.
  unfold onload. destruct (split comma url) as [header others]. simpl.
  destruct (match_colon_semicolon header) as [[|c m]|]; try discriminate.
  intros [= <-]. simpl. repeat split. discriminate.
Qed.

(** X1. Every record the decoder produces holds the URL the reader gave as
    its preview, a MIME type that is not empty, stands on one line and has
    no semicolon and no comma, taken from between a colon and a semicolon
    of the part before the first comma, and as payload the text between the
    first two commas; the payload is undefined exactly when the URL has no
    comma. *)
Theorem resolved_record_shape
  (reader : File -> ReaderEvent) (file : File) (info : ImageInfo) :
  fileToImageInfo reader file = Resolved info ->
  reader file = OnLoad (Some (previewUrl info))
  /\ mimeType info <> []
  /\ Forall (fun c => c <> semicolon /\ c <> comma /\ dot c) (mimeType info)
  /\ (exists pre post tail,
        previewUrl info
        = (pre ++ colon :: mimeType info ++ semicolon :: post) ++ tail
        /\ ~ In comma (pre ++ colon :: mimeType info ++ semicolon :: post)
        /\ (tail = [] \/ exists r, tail = comma :: r))
  /\ match base64Data info with
     | None => ~ In comma (previewUrl info)
     | Some payload =>
         ~ In comma payload
         /\ exists header rest,
              previewUrl info = header ++ comma :: payload ++ rest
              /\ ~ In comma header
              /\ (rest = [] \/ exists r, rest = comma :: r)
     end.
Proof.
  unfold fileToImageInfo. destruct (reader file) as [[url|]|ev] eqn:Hread;
    try discriminate.
  intros Hload. destruct (onload_resolved _ _ Hload) as (Hurl & Hpay & Hne & Hm).
  destruct (match_capture _ _ Hm) as (Hmime & pre & post & Hheader).
  destruct (split_shape comma url) as (Hnocomma & Hshape).
  rewrite Hurl, Hpay. split; [reflexivity|]. split; [exact Hne|].
  pose proof Hnocomma as Hheader_nocomma. rewrite Hheader in Hheader_nocomma.
  split; [|split].
  - rewrite Forall_forall in *. intros c Hc.
    destruct (Hmime c Hc) as [? ?]. repeat split; try assumption.
    intros ->. apply Hheader_nocomma. apply in_or_app. right. right.
    apply in_or_app. now left.
  - exists pre, post. rewrite <- Hheader.
    destruct (snd (split comma url)) as [|d t].
    + exists []. rewrite app_nil_r. split; [exact Hshape|].
      split; [exact Hnocomma | now left].
    + destruct Hshape as (_ & rest & Hs & _).
      exists (comma :: d ++ rest).
      split; [exact Hs|]. split; [exact Hnocomma|]. right. eauto.
  - destruct (snd (split comma url)) as [|d t]; simpl.
    + rewrite Hshape. exact Hnocomma.
    + destruct Hshape as (Hd & rest & Hs & Hrest). split; [exact Hd|].
      exists (fst (split comma url)), rest. now repeat split.
Qed.

Lemma resolved_record_shape_witness :
  reader_loads {| file_bytes := [137; 80; 78; 71]; file_type := lit "image/png" |}
  = OnLoad (Some (lit "data:image/png;base64,iVBORw==")).
Proof.
  exact (proj1 (resolved_record_shape reader_loads
                  {| file_bytes := [137; 80; 78; 71];
                     file_type := lit "image/png" |}
                  {| base64Data := Some (lit "iVBORw==");
                     mimeType := lit "image/png";
                     previewUrl := lit "data:image/png;base64,iVBORw==" |}
                  eq_refl)).
Defined.

Lemma split_header_rest (header rest : jsstring) :
  ~ In comma header ->
  rest = [] \/ (exists r, rest = comma :: r) ->
  split comma (header ++ rest)
  = (header, match rest with
             | [] => []
             | _ :: r => fst (split comma r) :: snd (split comma r)
             end).
Proof.
  intros Hh [-> | (r & ->)]; rewrite split_app by assumption.
  - simpl. now rewrite app_nil_r.
  - rewrite split_cons_sep. simpl. now rewrite app_nil_r.
Qed.

(** Decoding looks at nothing but the first colon, the first semicolon
    after it and the first two commas. *)
Lemma onload_general (pre mime post rest : jsstring) :
  ~ In colon pre ->
  ~ In comma pre ->
  well_formed_mime mime ->
  ~ In comma post ->
  rest = [] \/ (exists r, rest = comma :: r) ->
  onload (Some ((pre ++ colon :: mime ++ semicolon :: post) ++ rest))
  = Resolved
      {| base64Data := match rest with
                       | [] => None
                       | _ :: r => Some (fst (split comma r))
                       end;
         mimeType := mime;
         previewUrl := (pre ++ colon :: mime ++ semicolon :: post) ++ rest |}.
Proof.
  intros Hcolon Hpre [Hne Hmime] Hpost Hrest. unfold onload.
  assert (Hheader : ~ In comma (pre ++ colon :: mime ++ semicolon :: post)).
  { intros Hin. apply in_app_or in Hin as [Hin | [Hin | Hin]];
      [tauto | discriminate |].
    apply in_app_or in Hin as [Hin | [Hin | Hin]];
      [| discriminate | tauto].
    rewrite Forall_forall in Hmime. now destruct (Hmime _ Hin) as (_ & ? & _). }
  rewrite (split_header_rest _ _ Hheader Hrest).
  rewrite match_skips_prefix, match_at_colon, lazy_dots_exact by
    (assumption ||
     (eapply Forall_impl; [|exact Hmime]; now intros c (? & _ & ?))).
  destruct mime; [contradiction|]. now destruct rest.
Qed.

(** X2. The decoder checks neither the scheme before the first colon nor
    what follows the first semicolon: the MIME type of the record is the
    text between them, so parameters of the media type are dropped, and the
    payload is the text from the first comma to the next one, or undefined
    without a comma. *)
Theorem mime_is_between_first_colon_and_semicolon
  (pre mime post rest : jsstring) :
  ~ In colon pre ->
  ~ In comma pre ->
  well_formed_mime mime ->
  ~ In comma post ->
  rest = [] \/ (exists r, rest = comma :: r) ->
  onload (Some ((pre ++ colon :: mime ++ semicolon :: post) ++ rest))
  = Resolved
      {| base64Data := match rest with
                       | [] => None
                       | _ :: r => Some (fst (split comma r))
                       end;
         mimeType := mime;
         previewUrl := (pre ++ colon :: mime ++ semicolon :: post) ++ rest |}.
Proof. exact (onload_general pre mime post rest). Qed.

Lemma text_plain_is_well_formed : well_formed_mime (lit "text/plain").
Proof.
  split; [discriminate|]. repeat constructor; solve [discriminate | reflexivity].
Qed.

Lemma mime_is_between_first_colon_and_semicolon_witness :
  onload (Some (lit "blob:text/plain;charset=utf-8,hello"))
  = Resolved {| base64Data := Some (lit "hello");
                mimeType := lit "text/plain";
                previewUrl := lit "blob:text/plain;charset=utf-8,hello" |}.
Proof.
  refine (mime_is_between_first_colon_and_semicolon
            (lit "blob") (lit "text/plain") (lit "charset=utf-8")
            (lit ",hello") _ _ text_plain_is_well_formed _ _).
  - intros H. not_a_member H.
  - intros H. not_a_member H.
  - intros H. not_a_member H.
  - right. now exists (lit "hello").
Defined.

(** X3. A payload that holds a comma is cut there: the record keeps only
    the text between the first two commas of the URL, while its preview is
    the whole URL. *)
Theorem payload_is_cut_at_the_next_comma (mime d rest : jsstring) :
  well_formed_mime mime ->
  ~ In comma d ->
  onload (Some (data_url mime (d ++ comma :: rest)))
  = Resolved {| base64Data := Some d;
                mimeType := mime;
                previewUrl := data_url mime (d ++ comma :: rest) |}.
Proof.
  intros Hwf Hd. rewrite data_url_parts.
  assert (Hpayload : fst (split comma (d ++ comma :: rest)) = d).
  { rewrite split_app, split_cons_sep by assumption. simpl. apply app_nil_r. }
  rewrite <- Hpayload at 2.
  apply (onload_general (lit "data") mime (lit "base64")
           (comma :: d ++ comma :: rest)); try assumption.
  - intros H. not_a_member H.
  - intros H. not_a_member H.
  - intros H. not_a_member H.
  - right. eauto.
Qed.

Lemma payload_is_cut_at_the_next_comma_witness :
  base64Data_of (onload (Some (lit "data:text/plain;base64,aGk=,tail")))
  = Some (Some (lit "aGk=")).
Proof.
  assert (Hd : ~ In comma (lit "aGk=")) by (intros H; not_a_member H).
  exact (f_equal base64Data_of
           (payload_is_cut_at_the_next_comma (lit "text/plain")
              (lit "aGk=") (lit "tail") text_plain_is_well_formed Hd)).
Defined.

(** X4. An empty envelope at the first colon makes the decoder give up:
    the URL is rejected whatever follows, a complete envelope included. *)
Theorem empty_first_envelope_is_rejected (pre post rest : jsstring) :
  ~ In colon pre ->
  ~ In comma (pre ++ colon :: semicolon :: post) ->
  rest = [] \/ (exists r, rest = comma :: r) ->
  onload (Some ((pre ++ colon :: semicolon :: post) ++ rest))
  = Rejected (new_Error could_not_determine).
Proof.
  intros Hcolon Hcomma Hrest. unfold onload.
  rewrite (split_header_rest _ _ Hcomma Hrest).
  now rewrite match_skips_prefix, match_at_colon by assumption.
Qed.

Lemma empty_first_envelope_is_rejected_witness :
  has_mime_envelope (lit "x:;data:image/png;base64")
  /\ onload (Some (lit "x:;data:image/png;base64,iVBORw=="))
     = Rejected (new_Error could_not_determine).
Proof.
  split.
  - exists (lit "x:;data"), (lit "image/png"), (lit "base64").
    split; [reflexivity|]. split; [discriminate|].
    repeat constructor.
  - refine (empty_first_envelope_is_rejected
              (lit "x") (lit "data:image/png;base64") (lit ",iVBORw==") _ _ _).
    + intros H. not_a_member H.
    + intros H. not_a_member H.
    + right. now exists (lit "iVBORw==").
Defined.

(** X5. The decoder fails in three ways only: with the event of a reader
    that failed, with "Failed to read file as a data URL." when the result
    of the reader is no string, and with "Could not determine image MIME
    type." when the part of the URL before its first comma has no colon
    followed on the same line by a semicolon, or has nothing between the
    first such pair. *)
Theorem rejections_of_the_decoder
  (reader : File -> ReaderEvent) (file : File) (t : Thrown) :
  fileToImageInfo reader file = Rejected t ->
  reader file = OnError t
  \/ (reader file = OnLoad None
      /\ t = new_Error (lit "Failed to read file as a data URL."))
  \/ (exists url,
        reader file = OnLoad (Some url)
        /\ t = new_Error (lit "Could not determine image MIME type.")
        /\ (match_colon_semicolon (fst (split comma url)) = None
            \/ match_colon_semicolon (fst (split comma url)) = Some [])).
Proof.
  unfold fileToImageInfo. destruct (reader file) as [[url|]|ev].
  - intros H. right. right. exists url. split; [reflexivity|].
    unfold onload in H. destruct (split comma url) as [header others].
    simpl. destruct (match_colon_semicolon header) as [[|c m]|];
      try discriminate; injection H as <-; tauto.
  - intros [= <-]. right. left. now split.
  - intros [= <-]. now left.
Qed.

Lemma rejections_of_the_decoder_witness :
  match_colon_semicolon (fst (split comma (lit "data,AAAA"))) = None
  \/ match_colon_semicolon (fst (split comma (lit "data,AAAA"))) = Some [].
Proof.
  destruct (rejections_of_the_decoder
              (fun _ => OnLoad (Some (lit "data,AAAA")))
              {| file_bytes := []; file_type := [] |}
              (new_Error could_not_determine) eq_refl)
    as [H | [[H _] | (url & H & _ & Hmatch)]].
  - discriminate H.
  - discriminate H.
  - injection H as <-. exact Hmatch.
Defined.

End CodecMore.

(** ** The client on every response *)

Module ClientMore.
Import Codec OllamaService StringFacts CodecSpec ClientSpec CodecMore.

Section WithEngine.
Context {E : Engine}.

(** What the engine throws while reading and converting a parsed value is
    a TypeError. *)
Lemma Get_throws_TypeError (v : Json) (key : jsstring) (t : Thrown) :
  Get v key = Throw t -> instanceof_TypeError t = true.
Proof. destruct v; simpl; try discriminate. now intros [= <-]. Qed.

Lemma ToString_json_throws_TypeError :
  forall (v : Json) (t : Thrown),
    ToString_json v = Throw t -> instanceof_TypeError t = true.
Proof.
  fix IH 1. intros [| [|] | n | s | elements | fields]; simpl;
    try discriminate.
  - induction elements as [|x r IHr]; intros t; [discriminate|].
    destruct (match x with JNull => Normal [] | _ => ToString_json x end)
      as [a|t'] eqn:Hx; simpl.
    + match goal with
      | |- context [bind ?j _] => destruct j as [b|t''] eqn:Hj
      end.
      * destruct r; discriminate.
      * pose proof (IHr _ eq_refl) as Ht. destruct r; [discriminate|].
        now intros [= <-].
    + intros [= <-].
      assert (Hx' : ToString_json x = Throw t')
        by (destruct x; (discriminate Hx || exact Hx)).
      exact (IH x t' Hx').
  - intros t. destruct (own_property fields (lit "toString")); [|discriminate].
    now intros [= <-].
Qed.

Lemma ToString_throws_TypeError (v : Value) (t : Thrown) :
  ToString v = Throw t -> instanceof_TypeError t = true.
Proof.
  destruct v as [j|]; simpl; [apply ToString_json_throws_TypeError|].
  discriminate.
Qed.

Lemma catch_block_TypeError (t : Thrown) :
  instanceof_TypeError t = true ->
  snd (catch_block t) = new_Error connectivity_message.
Proof. intros H. unfold catch_block. simpl. now rewrite H. Qed.

Lemma catch_block_new_Error (m : jsstring) :
  snd (catch_block (new_Error m)) = new_Error m.
Proof. reflexivity. Qed.

(** X6. A run of the client is the request alone when it resolves, and
    the request followed by one log entry, of what the [try] block threw,
    when it rejects. What it rejects with is always a new Error and never
    the value thrown: under the connectivity message for a TypeError, under
    the message of any other Error, under the generic message otherwise. *)
Theorem client_run_shape (fetch : Network) (imageInfo : ImageInfo) :
  (exists text,
      generateDescriptionFromImage fetch imageInfo
      = ([the_request imageInfo], Resolved text))
  \/ (exists t m,
        snd (try_block fetch imageInfo) = Throw t
        /\ generateDescriptionFromImage fetch imageInfo
           = ([the_request imageInfo; the_log t], Rejected (new_Error m))
        /\ match t with
           | ErrorObject TypeError _ => m = connectivity_message
           | ErrorObject _ message => m = message
           | NonError _ => m = unexpected_message
           end).
Proof.
  rewrite run_of_completion.
  destruct (snd (try_block fetch imageInfo)) as [text|t].
  - left. now exists text.
  - right. rewrite catch_block_cases.
    destruct t as [[] message|what]; eauto 6.
Qed.

(** X7. For an ok response whose body parsed and whose [response] member
    could be read, the member alone decides the outcome: a non-empty string
    is returned trimmed; a falsy value ([undefined], [null], [false], the
    empty string, a falsy number) gives the empty-description error; any
    other value, having no [trim], gives the connectivity message. *)
Theorem ok_response_outcome
  (fetch : Network) (imageInfo : ImageInfo)
  (response : Response) (data : Json) (field : Value) :
  fetch OLLAMA_API_URL (request_init imageInfo) = Resolved response ->
  ok response = true ->
  json response = Resolved data ->
  Get data (lit "response") = Normal field ->
  snd (generateDescriptionFromImage fetch imageInfo)
  = match field with
    | Some (JString (c :: s)) => Resolved (trim (c :: s))
    | _ =>
        Rejected (new_Error (if ToBoolean field then connectivity_message
                             else empty_description_message))
    end.
Proof.
  intros Hfetch Hok Hjson Hget.
  rewrite (run_with_response _ _ _ Hfetch), (handle_ok _ _ _ Hok Hjson Hget).
  destruct field as [[| b | n | [|c s] | elements | fields]|]; simpl;
    try reflexivity.
  - now destruct b.
  - now destruct (num_truthy n).
Qed.

Lemma handle_not_ok_cases (response : Response) :
  ok response = false ->
  (exists text,
      handle_response response
      = Throw (new_Error (server_error_message (status response) text)))
  \/ (exists t,
        handle_response response = Throw t
        /\ instanceof_TypeError t = true).
Proof.
  intros Hok. unfold handle_response. rewrite Hok, await_error_body.
  cbn [negb bind].
  match goal with
  | |- context [Get ?b ?k] => destruct (Get b k) as [error|t] eqn:Hget
  end; cbn [bind].
  - destruct (ToString error) as [text|t] eqn:Htext; cbn [bind].
    + left. now exists text.
    + right. exists t. split; [reflexivity|].
      exact (ToString_throws_TypeError _ _ Htext).
  - right. exists t. split; [reflexivity|].
    exact (Get_throws_TypeError _ _ _ Hget).
Qed.

(** X8. A response that is not ok never yields a description: the client
    rejects, under the server error message built from the status, or
    under the connectivity message when reading or converting the [error]
    member of the body throws. *)
Theorem not_ok_never_resolves
  (fetch : Network) (imageInfo : ImageInfo) (response : Response) :
  fetch OLLAMA_API_URL (request_init imageInfo) = Resolved response ->
  ok response = false ->
  exists m,
    snd (generateDescriptionFromImage fetch imageInfo)
    = Rejected (new_Error m)
    /\ (m = connectivity_message
        \/ exists text, m = server_error_message (status response) text).
Proof.
  intros Hfetch Hok. rewrite (run_with_response _ _ _ Hfetch).
  destruct (handle_not_ok_cases response Hok)
    as [(text & ->) | (t & -> & Ht)]; cbn [snd].
  - exists (server_error_message (status response) text).
    rewrite catch_block_new_Error. eauto.
  - exists connectivity_message. rewrite (catch_block_TypeError t Ht).
    now split; [|left].
Qed.

(** X9. For a response that is not ok, the message of the client names
    the status and the placeholder "Could not parse error response." when
    the body does not parse, and the status and the text of the [error]
    member when the body parses and the member can be read and converted:
    a string stands for itself, a missing member reads "undefined", [null]
    reads "null", an object without a [toString] member reads
    "[object Object]". *)
Theorem server_error_text
  (fetch : Network) (imageInfo : ImageInfo) (response : Response) :
  fetch OLLAMA_API_URL (request_init imageInfo) = Resolved response ->
  ok response = false ->
  (forall t,
      json response = Rejected t ->
      snd (generateDescriptionFromImage fetch imageInfo)
      = Rejected (new_Error
                    (server_error_message (status response)
                       (lit "Could not parse error response."))))
  /\ (forall errorBody error text,
         json response = Resolved errorBody ->
         Get errorBody (lit "error") = Normal error ->
         ToString error = Normal text ->
         snd (generateDescriptionFromImage fetch imageInfo)
         = Rejected (new_Error (server_error_message (status response) text))
         /\ contains (server_error_message (status response) text)
              (number_to_string (status response))
         /\ contains (server_error_message (status response) text) text)
  /\ (forall s, ToString (Some (JString s)) = Normal s)
  /\ ToString None = Normal (lit "undefined")
  /\ ToString (Some JNull) = Normal (lit "null")
  /\ (forall fields,
         own_property fields (lit "toString") = None ->
         ToString (Some (JObject fields)) = Normal (lit "[object Object]")).
Proof.
  intros Hfetch Hok. split; [|split; [|repeat split]].
  - intros t Hjson.
    rewrite (run_with_response _ _ _ Hfetch). unfold handle_response.
    now rewrite Hok, await_error_body, Hjson.
  - intros errorBody error text Hjson Hget Htext.
    rewrite (server_error_of_body fetch imageInfo response errorBody error text)
      by assumption.
    split; [reflexivity|]. unfold server_error_message. split.
    + apply contains_intro.
    + rewrite 2 app_assoc. apply contains_intro.
  - intros fields Hnone. simpl. now rewrite Hnone.
Qed.

(** X10. A data URL that has an envelope and no comma decodes to a record
    without payload, and the request made for that record carries
    [images] as the one-element array [[null]]. *)
Theorem payload_missing_is_sent_as_null (header : jsstring) (c : code_unit)
  (mime : jsstring) :
  ~ In comma header ->
  match_colon_semicolon header = Some (c :: mime) ->
  exists info,
    onload (Some header) = Resolved info
    /\ base64Data info = None
    /\ mimeType info = c :: mime
    /\ body (request_init info) = wire_body (lit "null").
Proof.
  intros Hcomma Hmatch.
  exists {| base64Data := None; mimeType := c :: mime; previewUrl := header |}.
  split; [|split; [reflexivity|split; [reflexivity|]]].
  - unfold onload. rewrite (split_no_sep _ _ Hcomma). simpl.
    now rewrite Hmatch.
  - now rewrite body_on_the_wire.
Qed.

End WithEngine.

End ClientMore.

(** ** The page *)

Module PageSpec.
Import Codec OllamaService App Uploader Page.
Import StringFacts CodecSpec ClientSpec CodecMore ClientMore.

Section WithEngine.
Context {E : Engine}.

Lemma catch_block_is_new_Error (t : Thrown) :
  exists m, snd (catch_block t) = new_Error m.
Proof. rewrite catch_block_cases. destruct t as [[] m|w]; eauto. Qed.

(** The handler is its part before the [await], the client, and its part
    after the [await]. *)
Lemma handler_splits (fetch : Network) (st : AppState) (info : ImageInfo) :
  imageInfo st = Some info ->
  handleGenerateDescription fetch st
  = (fst (generateDescriptionFromImage fetch info)
     ++ fst (finish_generate (snd (generateDescriptionFromImage fetch info))
               (begin_generate st)),
     snd (finish_generate (snd (generateDescriptionFromImage fetch info))
            (begin_generate st))).
Proof.
  intros Hst. unfold handleGenerateDescription. rewrite Hst.
  destruct (generateDescriptionFromImage fetch info) as [trace [text|e]];
    simpl; [now rewrite app_nil_r | reflexivity].
Qed.

(** X11. With an image in the state, the handler issues exactly one
    request, keeps the image, and ends with the loading flag cleared. When
    the client resolves, the description is its text, the error is null
    and nothing is logged; when it rejects, the description is empty, the
    error is "Failed to generate description. " followed by the message of
    the client's Error, and two values are logged: what the client caught
    and what it threw. *)
Theorem generate_outcome (fetch : Network) (st : AppState) (info : ImageInfo) :
  imageInfo st = Some info ->
  let run := handleGenerateDescription fetch st in
  requests (fst run) = [the_request info]
  /\ imageInfo (snd run) = Some info
  /\ isLoading (snd run) = false
  /\ match snd (generateDescriptionFromImage fetch info) with
     | Resolved text =>
         description (snd run) = text
         /\ error (snd run) = None
         /\ logged (fst run) = []
     | Rejected e =>
         exists t m,
           e = new_Error m
           /\ snd (try_block fetch info) = Throw t
           /\ description (snd run) = []
           /\ error (snd run) = Some (failed_to_generate m)
           /\ logged (fst run) = [t; e]
     end.
Proof.
  intros Hst run. unfold run. rewrite (handler_splits _ _ _ Hst).
  rewrite run_of_completion.
  destruct (snd (try_block fetch info)) as [text|t]; cbn [fst snd].
  - simpl. now rewrite Hst.
  - destruct (catch_block_is_new_Error t) as (m & ->).
    simpl. rewrite Hst. repeat split. exists t, m. now repeat split.
Qed.

Lemma result_region_panel (st : AppState) :
  result_region st
  = [if isLoading st then Loader
     else match error st with
          | Some (c :: m) => ErrorAlert (c :: m)
          | _ =>
              match description st with
              | [] => Placeholder
              | d => DescriptionText d
              end
          end].
Proof.
  unfold result_region, DescriptionDisplay.
  destruct (isLoading st), (error st) as [[|c m]|], (description st);
    reflexivity.
Qed.

(** X12. The result region always shows exactly one thing: the loader
    while loading; otherwise the error, when there is a non-empty one;
    otherwise the description, or the hint when the description is
    empty. *)
Theorem result_region_shows_one_panel (st : AppState) :
  List.length (result_region st) = 1%nat
  /\ (isLoading st = true -> result_region st = [Loader])
  /\ (isLoading st = false ->
      forall c m, error st = Some (c :: m) ->
      result_region st = [ErrorAlert (c :: m)])
  /\ (isLoading st = false ->
      error st = None \/ error st = Some [] ->
      result_region st = [DescriptionDisplay (description st)])
  /\ (forall d, DescriptionDisplay d = Placeholder <-> d = []).
Proof.
  rewrite result_region_panel. split; [reflexivity|].
  split; [intros ->; reflexivity|].
  split; [intros -> c m ->; reflexivity|].
  split.
  - intros -> [-> | ->]; unfold DescriptionDisplay;
      now destruct (description st).
  - intros d. unfold DescriptionDisplay. destruct d; split;
      (reflexivity || discriminate).
Qed.

(** X13. The emptiness of the description is checked before it is
    trimmed: for a description made of white space only the client
    resolves with the empty string, and the page, with no error, shows its
    hint again. *)
Theorem blank_description_shows_the_hint
  (fetch : Network) (st : AppState) (info : ImageInfo)
  (response : Response) (data : Json) (s : jsstring) :
  imageInfo st = Some info ->
  fetch OLLAMA_API_URL (request_init info) = Resolved response ->
  ok response = true ->
  json response = Resolved data ->
  Get data (lit "response") = Normal (Some (JString s)) ->
  s <> [] ->
  Forall blank s ->
  snd (generateDescriptionFromImage fetch info) = Resolved []
  /\ error (snd (handleGenerateDescription fetch st)) = None
  /\ result_region (snd (handleGenerateDescription fetch st)) = [Placeholder].
Proof.
  intros Hst Hfetch Hok Hjson Hget Hs Hblank.
  assert (Htrim : trim s = []).
  { rewrite <- (app_nil_r s) at 1.
    apply (trim_unique s [] []); try assumption; try constructor.
    - intros c t H. discriminate H.
    - intros t c H. now destruct t. }
  assert (Hrun : generateDescriptionFromImage fetch info
                 = ([the_request info], Resolved [])).
  { rewrite (run_with_response _ _ _ Hfetch), (handle_ok _ _ _ Hok Hjson Hget).
    destruct s; [contradiction|]. simpl ToBoolean. cbv iota.
    unfold call_trim. now rewrite Htrim. }
  rewrite (handler_splits _ _ _ Hst), Hrun. now repeat split.
Qed.

End WithEngine.

(** X14. Whatever the reader delivers for the first file chosen, an upload
    empties the description, clears the error, touches neither the loading
    nor the dragging flag, and leaves the preview equal to the URL of the
    record of the App: on success that record is the decoded one and
    nothing else happens; on failure the record is dropped, the failure is
    logged and the user is alerted. The other files are ignored. *)
Theorem upload_outcome
  (reader : File -> ReaderEvent) (files : option (list File)) (file : File)
  (u : UploaderState) (st : AppState) :
  first_file files = Some file ->
  let run := handleFileChange handleImageUpload reader files (u, st) in
  let u' := fst (snd run) in
  let st' := snd (snd run) in
  description st' = []
  /\ error st' = None
  /\ isLoading st' = isLoading st
  /\ isDragging u' = isDragging u
  /\ preview u' = option_map previewUrl (imageInfo st')
  /\ match fileToImageInfo reader file with
     | Resolved info => imageInfo st' = Some info /\ fst run = []
     | Rejected t =>
         imageInfo st' = None
         /\ fst run = [LogError t; Alert could_not_process]
     end.
Proof.
  intros Hfile. unfold handleFileChange. rewrite Hfile.
  destruct (fileToImageInfo reader file) as [info|t]; simpl; now repeat split.
Qed.

End PageSpec.

(** ** Sessions *)

Module SessionSpec.
Import Codec OllamaService App Uploader Page.
Import StringFacts CodecSpec ClientSpec CodecMore ClientMore PageSpec.

Section WithEngine.
Context {E : Engine}.

Lemma failed_is_not_please_upload (m : jsstring) :
  Some (failed_to_generate m) <> Some please_upload.
Proof. unfold failed_to_generate. simpl. discriminate. Qed.

Lemma initial_consistent : consistent initial.
Proof.
  unfold consistent, initial; simpl. repeat split; try tauto; try discriminate.
  lia.
Qed.

Lemma one_pending (l : list (Settled jsstring)) (i : nat)
  (outcome : Settled jsstring) :
  (List.length l <= 1)%nat ->
  nth_error l i = Some outcome ->
  l = [outcome] /\ remove_nth i l = [].
Proof.
  destruct l as [|o [|o' l]]; simpl; intros Hlen Hnth.
  - now destruct i.
  - destruct i as [|[|i]]; simpl in Hnth; try discriminate.
    injection Hnth as ->. now split.
  - lia.
Qed.

Lemma step_consistent (a : Action) (s : Session) :
  consistent s -> consistent (step a s).
Proof.
  destruct s as [[info d loading err] [pre drag] pend].
  unfold consistent; simpl.
  intros (Hsync & Hload & Hlen & Hpend & Herr & Hmsg).
  destruct a as [reader files | | | | | fetch | i]; simpl; try tauto.
  - unfold handleFileChange.
    destruct (first_file files) as [file|]; simpl; [|tauto].
    destruct (fileToImageInfo reader file) as [info'|t]; simpl;
      intuition discriminate.
  - unfold button_disabled; simpl. destruct info as [info|]; simpl; [|tauto].
    destruct loading; simpl; [tauto|].
    assert (Hnone : pend = []).
    { destruct pend; [reflexivity|].
      destruct Hload as [_ Hload]. now discriminate Hload. }
    subst pend. simpl. intuition (discriminate || lia).
  - destruct (nth_error pend i) as [outcome|] eqn:Hnth; simpl; [|tauto].
    destruct (one_pending _ _ _ Hlen Hnth) as [-> ->].
    destruct Hpend as [-> ->]; [discriminate|].
    destruct outcome as [text|e]; simpl.
    + intuition (discriminate || lia).
    + pose proof (failed_is_not_please_upload
                    match e with
                    | ErrorObject _ message => message
                    | NonError _ => lit "An unknown error occurred."
                    end).
      intuition (discriminate || lia).
Qed.

Lemma run_consistent (actions : list Action) (s : Session) :
  consistent s -> consistent (run actions s).
Proof.
  revert s. induction actions as [|a actions IH]; intros s Hs; simpl.
  - exact Hs.
  - apply IH. now apply step_consistent.
Qed.

(** X15. Between any two events of a session that starts with the page
    as it is first rendered: the preview of the uploader is the URL of the
    record of the App; the loading flag is set exactly while a call of the
    client is in flight, and at most one ever is; while one is, there is
    neither error nor description; an error is never shown beside a
    description; and the error is never "Please upload an image first.",
    the button being disabled without an image. *)
Theorem session_is_consistent (actions : list Action) :
  let s := run actions initial in
  preview (uploader s) = option_map previewUrl (imageInfo (app s))
  /\ (isLoading (app s) = true <-> pending s <> [])
  /\ (List.length (pending s) <= 1)%nat
  /\ (pending s <> [] -> error (app s) = None /\ description (app s) = [])
  /\ (error (app s) <> None -> description (app s) = [])
  /\ error (app s) <> Some (lit "Please upload an image first.").
Proof. exact (run_consistent actions initial initial_consistent). Qed.

Lemma click_starts_a_call (s : Session) (fetch : Network) (info : ImageInfo) :
  button_disabled (app s) = false ->
  imageInfo (app s) = Some info ->
  step (Click fetch) s
  = {| app := begin_generate (app s);
       uploader := uploader s;
       pending := pending s ++ [snd (generateDescriptionFromImage fetch info)] |}.
Proof. intros Henabled Hinfo. simpl. now rewrite Henabled, Hinfo. Qed.

Lemma files_read (s : Session) (reader : File -> ReaderEvent)
  (files : option (list File)) (file : File) (info : ImageInfo) :
  first_file files = Some file ->
  fileToImageInfo reader file = Resolved info ->
  step (FilesRead reader files) s
  = {| app := handleImageUpload (Some info) (app s);
       uploader := setPreview (Some (previewUrl info)) (uploader s);
       pending := pending s |}.
Proof.
  intros Hfile Hinfo. simpl. unfold handleFileChange.
  now rewrite Hfile, Hinfo.
Qed.

(** X16. While a call of the client is in flight, a click on the button
    changes nothing: no second call is started before the first settles. *)
Theorem click_in_flight_does_nothing (actions : list Action) (fetch : Network) :
  pending (run actions initial) <> [] ->
  step (Click fetch) (run actions initial) = run actions initial.
Proof.
  intros Hpending.
  destruct (run_consistent actions initial initial_consistent)
    as (_ & Hload & _).
  apply Hload in Hpending. simpl. unfold button_disabled.
  rewrite Hpending. now destruct (imageInfo (app (run actions initial))).
Qed.

(** X18. A description that arrives after another image was uploaded is
    still shown: when a file is read between the click and the settlement
    of the call, the page ends with the new image, its preview, and the
    description of the old one. *)
Theorem late_description_stays
  (s : Session) (fetch : Network) (old new : ImageInfo) (text : jsstring)
  (reader : File -> ReaderEvent) (files : option (list File)) (file : File) :
  imageInfo (app s) = Some old ->
  isLoading (app s) = false ->
  pending s = [] ->
  snd (generateDescriptionFromImage fetch old) = Resolved text ->
  first_file files = Some file ->
  fileToImageInfo reader file = Resolved new ->
  let s' := run [Click fetch; FilesRead reader files; Settle 0] s in
  app s' = {| imageInfo := Some new;
              description := text;
              isLoading := false;
              error := None |}
  /\ preview (uploader s') = Some (previewUrl new)
  /\ pending s' = [].
Proof.
  intros Hold Hloading Hpending Htext Hfile Hnew s'. unfold s'.
  change (run [Click fetch; FilesRead reader files; Settle 0] s)
    with (step (Settle 0)
            (step (FilesRead reader files) (step (Click fetch) s))).
  assert (Henabled : button_disabled (app s) = false)
    by (unfold button_disabled; now rewrite Hold).
  rewrite (click_starts_a_call _ _ _ Henabled Hold), Hpending, Htext.
  rewrite (files_read _ _ _ _ _ Hfile Hnew). simpl. now repeat split.
Qed.

Lemma base64_is_plain (bytes : list N) :
  forallb is_plain (base64 bytes) = true.
Proof.
  apply forallb_forall. intros c Hc.
  pose proof (base64_units bytes) as Hall. rewrite Forall_forall in Hall.
  apply (base64_unit_check is_plain); [reflexivity | now apply Hall].
Qed.

(** X19. From the first render: a file whose type is a well-formed MIME
    type is read, the button is clicked, and the server answers ok with a
    non-empty string as [response]. The page then holds the record of the
    file, with the base64 text of its bytes as payload, shows the
    description trimmed and no error, and the one request made carried
    that base64 text, in quotes, as the only element of [images]. *)
Theorem upload_then_generate
  (bytes : list N) (mime : jsstring) (fetch : Network)
  (response : Response) (data : Json) (s : jsstring) :
  well_formed_mime mime ->
  let file := {| file_bytes := bytes; file_type := mime |} in
  let info := {| base64Data := Some (base64 bytes);
                 mimeType := mime;
                 previewUrl := encode bytes mime |} in
  fetch OLLAMA_API_URL (request_init info) = Resolved response ->
  ok response = true ->
  json response = Resolved data ->
  Get data (lit "response") = Normal (Some (JString s)) ->
  s <> [] ->
  let s' := run [FilesRead reader_loads (Some [file]); Click fetch; Settle 0]
              initial in
  app s' = {| imageInfo := Some info;
              description := trim s;
              isLoading := false;
              error := None |}
  /\ preview (uploader s') = Some (encode bytes mime)
  /\ pending s' = []
  /\ result_region (app s') = [DescriptionDisplay (trim s)]
  /\ body (request_init info) = wire_body (in_quotes (base64 bytes)).
Proof.
  intros Hwf file info Hfetch Hok Hjson Hget Hs.
  assert (Hdecode : fileToImageInfo reader_loads file = Resolved info).
  { unfold fileToImageInfo, reader_loads, encode, file. simpl.
    apply onload_data_url; [assumption | apply base64_no_comma]. }
  assert (Hrun : snd (generateDescriptionFromImage fetch info)
                 = Resolved (trim s)).
  { rewrite (run_with_response _ _ _ Hfetch), (handle_ok _ _ _ Hok Hjson Hget).
    destruct s; [contradiction|reflexivity]. }
  intros s'. unfold s'.
  change (run [FilesRead reader_loads (Some [file]); Click fetch; Settle 0]
            initial)
    with (step (Settle 0)
            (step (Click fetch)
               (step (FilesRead reader_loads (Some [file])) initial))).
  rewrite (files_read initial reader_loads (Some [file]) file info
             eq_refl Hdecode).
  match goal with
  | |- context [step (Click fetch) ?st] =>
      rewrite (click_starts_a_call st fetch info eq_refl eq_refl)
  end.
  rewrite Hrun.
  split; [reflexivity|]. split; [reflexivity|]. split; [reflexivity|]. split.
  - reflexivity.
  - rewrite body_on_the_wire. simpl stringify_element.
    unfold quote_json_string, in_quotes.
    now rewrite (quote_units_plain _ (base64_is_plain bytes)).
Qed.

Lemma step_error_is_a_failure (a : Action) (s : Session) :
  error (app s) = None
  \/ (exists m, error (app s) = Some (failed_to_generate m)) ->
  error (app (step a s)) = None
  \/ (exists m, error (app (step a s)) = Some (failed_to_generate m)).
Proof.
  intros Hs. destruct a as [reader files | | | | | fetch | i]; simpl;
    try exact Hs.
  - unfold handleFileChange. destruct (first_file files); [|exact Hs].
    destruct (fileToImageInfo reader f); now left.
  - unfold button_disabled.
    destruct (imageInfo (app s)); [|exact Hs].
    destruct (isLoading (app s)); [exact Hs | now left].
  - destruct (nth_error (pending s) i) as [[text|e]|]; simpl;
      [exact Hs | right; eauto | exact Hs].
Qed.

(** X20. In a session the only error the page ever shows is one of a
    failed generation: the error of the App is null or starts with
    "Failed to generate description. ", and the result region never holds
    an error panel with another text. *)
Theorem session_errors_are_failures (actions : list Action) :
  let s := run actions initial in
  (error (app s) = None
   \/ exists m,
        error (app s)
        = Some (lit "Failed to generate description. " ++ m))
  /\ forall message,
       In (ErrorAlert message) (result_region (app s)) ->
       exists m, message = lit "Failed to generate description. " ++ m.
Proof.
  intros s.
  assert (Herror : error (app s) = None
                   \/ exists m, error (app s) = Some (failed_to_generate m)).
  { unfold s, run. generalize initial, (or_introl eq_refl
      : error (app initial) = None
        \/ exists m, error (app initial) = Some (failed_to_generate m)).
    induction actions as [|a actions IH]; intros s0 Hs0; simpl.
    - exact Hs0.
    - apply IH. now apply step_error_is_a_failure. }
  split; [exact Herror|].
  intros message Hin. rewrite result_region_panel in Hin.
  destruct Hin as [Hin | []].
  destruct (isLoading (app s)); [discriminate|].
  destruct Herror as [Hnone | (m & Hm)].
  - rewrite Hnone in Hin. now destruct (description (app s)).
  - rewrite Hm in Hin. exists m.
    destruct (failed_to_generate m) eqn:Hf; [discriminate|].
    now injection Hin as <-.
Qed.

End WithEngine.

End SessionSpec.

(** ** More concrete runs *)

Module MoreRuns.
Import Codec OllamaService App Uploader Page Samples MoreSamples.
Import StringFacts CodecSpec ClientSpec CodecMore ClientMore PageSpec.
Import SessionSpec.

#[local] Existing Instance natural_engine.

Lemma image_type_is_well_formed (subtype : jsstring) :
  forallb (fun c => negb (c =? semicolon) && negb (c =? comma)
                    && negb (is_line_terminator c))
    (lit "image/" ++ subtype) = true ->
  well_formed_mime (lit "image/" ++ subtype).
Proof.
  intros H. split; [discriminate|].
  rewrite forallb_forall in H. apply Forall_forall. intros c Hc.
  apply H in Hc. apply andb_prop in Hc as [Hc Hlt].
  apply andb_prop in Hc as [Hsemi Hcomma].
  rewrite negb_true_iff in *. unfold dot.
  repeat split; try assumption; intros ->; discriminate.
Qed.

Lemma ok_response_outcome_witness :
  snd (generateDescriptionFromImage (answers flag_description) png)
  = Rejected (new_Error connectivity_message).
Proof.
  exact (ok_response_outcome (answers flag_description) png flag_description
           (JObject [(lit "response", JBool true)]) (Some (JBool true))
           eq_refl eq_refl eq_refl eq_refl).
Defined.

Lemma not_ok_never_resolves_witness :
  exists m,
    snd (generateDescriptionFromImage (answers model_not_found) png)
    = Rejected (new_Error m)
    /\ (m = connectivity_message
        \/ exists text, m = server_error_message 500 text).
Proof.
  exact (not_ok_never_resolves (answers model_not_found) png model_not_found
           eq_refl eq_refl).
Defined.

Lemma server_error_text_witness :
  snd (generateDescriptionFromImage (answers model_not_found) png)
  = Rejected (new_Error (server_error_message 500 (lit "model not found"))).
Proof.
  exact (proj1 (proj1 (proj2 (server_error_text (answers model_not_found) png
                                model_not_found eq_refl eq_refl))
                  (JObject [(lit "error", JString (lit "model not found"))])
                  (Some (JString (lit "model not found")))
                  (lit "model not found") eq_refl eq_refl eq_refl)).
Defined.

Lemma payload_missing_is_sent_as_null_witness :
  exists info,
    onload (Some (lit "data:image/png;base64")) = Resolved info
    /\ base64Data info = None
    /\ mimeType info = lit "image/png"
    /\ body (request_init info) = wire_body (lit "null").
Proof.
  refine (payload_missing_is_sent_as_null (lit "data:image/png;base64")
            105 (lit "mage/png") _ eq_refl).
  intros H. not_a_member H.
Defined.

Lemma generate_outcome_witness :
  requests (fst (handleGenerateDescription (answers cat_on_a_mat) (ready png)))
  = [the_request png].
Proof.
  exact (proj1 (generate_outcome (answers cat_on_a_mat) (ready png) png
                  eq_refl)).
Defined.

Lemma blank_description_shows_the_hint_witness :
  snd (generateDescriptionFromImage (answers blank_description) png)
  = Resolved []
  /\ error (snd (handleGenerateDescription (answers blank_description)
                   (ready png))) = None
  /\ result_region (snd (handleGenerateDescription (answers blank_description)
                           (ready png))) = [Placeholder].
Proof.
  refine (blank_description_shows_the_hint (answers blank_description)
            (ready png) png blank_description
            (JObject [(lit "response", JString [32; 10; 9])]) [32; 10; 9]
            eq_refl eq_refl eq_refl eq_refl eq_refl _ _).
  - discriminate.
  - repeat constructor.
Defined.

Lemma upload_outcome_witness :
  imageInfo (snd (snd (handleFileChange handleImageUpload unreadable
                         (Some [png_file; gif_file])
                         ({| preview := Some (previewUrl png);
                             isDragging := false |},
                          ready png))))
  = None.
Proof.
  exact (proj1 (proj2 (proj2 (proj2 (proj2 (proj2
           (upload_outcome unreadable (Some [png_file; gif_file]) png_file
              {| preview := Some (previewUrl png); isDragging := false |}
              (ready png) eq_refl))))))).
Defined.

Lemma click_in_flight_does_nothing_witness :
  step (Click (answers empty_response))
    (run [FilesRead reader_loads (Some [png_file]);
          Click (answers cat_on_a_mat)] initial)
  = run [FilesRead reader_loads (Some [png_file]);
         Click (answers cat_on_a_mat)] initial.
Proof.
  refine (click_in_flight_does_nothing
            [FilesRead reader_loads (Some [png_file]);
             Click (answers cat_on_a_mat)]
            (answers empty_response) _).
  discriminate.
Defined.

Lemma late_description_stays_witness :
  app (run [Click (answers cat_on_a_mat);
            FilesRead reader_loads (Some [gif_file]);
            Settle 0]
         {| app := ready png;
            uploader := {| preview := Some (previewUrl png);
                           isDragging := false |};
            pending := [] |})
  = {| imageInfo := Some gif;
       description := lit "A cat on a mat.";
       isLoading := false;
       error := None |}.
Proof.
  exact (proj1 (late_description_stays
                  {| app := ready png;
                     uploader := {| preview := Some (previewUrl png);
                                    isDragging := false |};
                     pending := [] |}
                  (answers cat_on_a_mat) png gif (lit "A cat on a mat.")
                  reader_loads (Some [gif_file]) gif_file
                  eq_refl eq_refl eq_refl eq_refl eq_refl eq_refl)).
Defined.

Lemma upload_then_generate_witness :
  app (run [FilesRead reader_loads (Some [png_file]);
            Click (answers cat_on_a_mat); Settle 0] initial)
  = {| imageInfo := Some png;
       description := lit "A cat on a mat.";
       isLoading := false;
       error := None |}.
Proof.
  refine (proj1 (upload_then_generate [137; 80; 78; 71] (lit "image/png")
                   (answers cat_on_a_mat) cat_on_a_mat
                   (JObject [(lit "response",
                              JString (lit "  A cat on a mat.  "))])
                   (lit "  A cat on a mat.  ")
                   (image_type_is_well_formed (lit "png") eq_refl)
                   eq_refl eq_refl eq_refl eq_refl _)).
  discriminate.
Defined.

Lemma result_region_shows_one_panel_witness :
  result_region (snd (handleGenerateDescription (answers model_not_found)
                        (ready png)))
  = [ErrorAlert
       (lit "Failed to generate description. "
        ++ server_error_message 500 (lit "model not found"))].
Proof.
  exact (proj1 (proj2 (proj2 (result_region_shows_one_panel
           (snd (handleGenerateDescription (answers model_not_found)
                   (ready png))))))
           eq_refl 70
           (lit "ailed to generate description. "
            ++ server_error_message 500 (lit "model not found"))
           eq_refl).
Defined.

Lemma session_errors_are_failures_witness :
  exists m,
    lit "Failed to generate description. "
    ++ server_error_message 500 (lit "model not found")
    = lit "Failed to generate description. " ++ m.
Proof.
  refine (proj2 (session_errors_are_failures
                   [FilesRead reader_loads (Some [png_file]);
                    Click (answers model_not_found); Settle 0])
            (lit "Failed to generate description. "
             ++ server_error_message 500 (lit "model not found")) _).
  left. reflexivity.
Defined.

(** C4 at two answers of a server that was reached. The claim wants the
    error of a transport failure to be distinct from the errors of the
    application. A status 500 with the body [null], and a status 200 whose
    [response] is [true], are answers of the server, yet the TypeErrors
    thrown while reading [errorBody.error] and while calling
    [data.response.trim()] are caught by the same [catch] block, and
    the client rejects with exactly the error it gives for a refused
    connection: same class, same message, so a caller cannot tell them
    apart. *)
Theorem application_failures_are_reported_as_connectivity :
  generateDescriptionFromImage (refuses connection_refused) png
  = ([the_request png; the_log connection_refused],
     Rejected (new_Error connectivity_message))
  /\ (answers null_error_body OLLAMA_API_URL (request_init png)
      = Resolved null_error_body
      /\ ok null_error_body = false
      /\ snd (generateDescriptionFromImage (answers null_error_body) png)
         = snd (generateDescriptionFromImage (refuses connection_refused) png))
  /\ (answers flag_description OLLAMA_API_URL (request_init png)
      = Resolved flag_description
      /\ ok flag_description = true
      /\ snd (generateDescriptionFromImage (answers flag_description) png)
         = snd (generateDescriptionFromImage (refuses connection_refused) png)).
Proof.
  split; [reflexivity|]. split; repeat split; reflexivity.
Qed.

End MoreRuns.
